(** * Back_End_Django: the view layer, embedded and verified

    The views of the four applications ([recommendations], [reports],
    [comparisons], [products]) are translated into functions over an
    explicit store: every ORM table is a list of rows carrying their
    primary key, the cache is a finite map from keys to values with an
    expiry time, and a view is a computation that threads the store and may
    raise.  Rows written before an exception stay written: no view opens a
    transaction.

    The collaborators the views call but do not define (the "AI" services,
    the serializers, the clock) enter every view as part of its request
    environment, so every statement quantifies over whatever they answer. *)

From Stdlib Require Import ZArith Lia Ascii String.
From stdpp Require Import base decidable option list gmap strings pretty sorting.

Open Scope Z_scope.
Set Warnings "-clear-no-such-hyp".

(** * The embedding *)

(** ** Python values

    What travels through [Response(...)], [cache.set] and the JSON columns. *)

#[warnings="-register-all"]
Inductive pyval :=
| PNone
| PBool (b : bool)
| PInt (z : Z)
| PStr (s : string)
| PList (l : list pyval)
| PDict (d : list (string * pyval)).

(** Python truthiness, as tested by [if cached_result:]. *)
Definition truthy (v : pyval) : bool :=
  match v with
  | PNone => false
  | PBool b => b
  | PInt z => negb (z =? 0)
  | PStr s => negb (String.eqb s "")
  | PList l => negb (bool_decide (l = []))
  | PDict d => negb (bool_decide (d = []))
  end.

(** ** HTTP responses *)

Definition HTTP_200_OK : Z := 200.
Definition HTTP_201_CREATED : Z := 201.
Definition HTTP_400_BAD_REQUEST : Z := 400.
Definition HTTP_404_NOT_FOUND : Z := 404.
Definition HTTP_500_INTERNAL_SERVER_ERROR : Z := 500.

(** [rest_framework.response.Response(data, status=...)]. *)
Record Response := mkResponse { data : pyval; status : Z }.

(** The body every [except Exception] handler answers with. *)
Definition error_body (msg : string) : pyval := PDict [("error", PStr msg)].

(** ** Exceptions and the view monad *)

Inductive exn :=
| ValidationError (errors : pyval)
| Http404
| DoesNotExist
| MultipleObjectsReturned
| IntegrityError
| TypeError
| ServiceError (msg : string).

(** A computation over a store [S]: the store it leaves, and either the
    exception it raised or its value. *)
Definition M (S A : Type) : Type := S → S * (exn + A).

Definition ret {S A} (a : A) : M S A := λ s, (s, inr a).
Definition raise {S A} (e : exn) : M S A := λ s, (s, inl e).
Definition bind {S A B} (m : M S A) (k : A → M S B) : M S B :=
  λ s, match m s with
       | (s', inl e) => (s', inl e)
       | (s', inr a) => k a s'
       end.
(** Read the store: a query that may raise. *)
Definition query {S A} (f : S → exn + A) : M S A := λ s, (s, f s).
Definition modify {S} (f : S → S) : M S () := λ s, (f s, inr ()).

(** [try: body except Exception as e: handler e]. *)
Definition try_except {S A} (body : M S A) (handler : exn → M S A) : M S A :=
  λ s, match body s with
       | (s', inl e) => handler e s'
       | (s', inr a) => (s', inr a)
       end.

(** Lift a result that does not touch the store. *)
Definition lift {S A} (r : exn + A) : M S A := λ s, (s, r).

Declare Scope view_scope.
Delimit Scope view_scope with view.
Notation "'do' x <- m ; k" := (bind m (λ x, k))
  (at level 10, x name, m at level 100, k at level 200) : view_scope.
Notation "m ;; k" := (bind m (λ _, k))
  (at level 100, k at level 200, right associativity) : view_scope.

(** ** ORM tables

    A table is the list of its rows in insertion order; [pk] reads the
    primary key.  [objects.create] gives the new row the first key above
    every stored one. *)

Section Table.
Context {Row : Type} (pk : Row → Z).

Definition next_pk (rows : list Row) : Z := 1 + foldr Z.max 0 (pk <$> rows).

(** [Model.objects.get(...)]. *)
Definition objects_get (P : Row → Prop) `{∀ r, Decision (P r)}
    (rows : list Row) : exn + Row :=
  match filter P rows with
  | [] => inl DoesNotExist
  | [r] => inr r
  | _ :: _ :: _ => inl MultipleObjectsReturned
  end.

(** [get_object_or_404(Model, ...)]: a missing row becomes
    [Http404]; more than one still raises [MultipleObjectsReturned]. *)
Definition get_object_or_404 (P : Row → Prop) `{∀ r, Decision (P r)}
    (rows : list Row) : exn + Row :=
  match objects_get P rows with
  | inl DoesNotExist => inl Http404
  | r => r
  end.

(** [UPDATE ... WHERE pk = k]: the row with key [k] becomes [f row]. *)
Definition update_pk (k : Z) (f : Row → Row) (rows : list Row) : list Row :=
  (λ x, if decide (pk x = k) then f x else x) <$> rows.

(** [instance.save()]: the row with the instance's key is overwritten. *)
Definition save (r : Row) (rows : list Row) : list Row :=
  update_pk (pk r) (λ _, r) rows.

(** [instance.delete()]. *)
Definition delete_row (r : Row) (rows : list Row) : list Row :=
  filter (λ x, pk x ≠ pk r) rows.

(** Primary keys are unique. *)
Definition pk_unique (rows : list Row) : Prop := NoDup (pk <$> rows).

End Table.

(** [queryset.order_by('-' + column)]: the rows from the largest value of
    the column down; rows that agree on the column come in some fixed
    order. *)
Definition order_by_desc {Row : Type} (column : Row → Z) (rows : list Row)
    : list Row :=
  @merge_sort Row (λ a b, column b ≤ column a)
    (λ a b, decide (column b ≤ column a)) rows.

(** ** Strings *)

(** Every character of the string satisfies [P]. *)
Fixpoint string_forall (P : ascii → Prop) (s : string) : Prop :=
  match s with
  | EmptyString => True
  | String c rest => P c ∧ string_forall P rest
  end.

(** * reports/views.py *)

Module Reports.

(** ** Time

    An aware datetime is its number of microseconds since the epoch;
    a [timedelta] is a number of microseconds. *)

Definition microseconds_per_day : Z := 86400000000.

(** [datetime.timedelta(days=..., weeks=...)]. *)
Definition timedelta (days weeks : Z) : Z :=
  (days + 7 * weeks) * microseconds_per_day.

(** ** Models *)

Record GeneratedReport := mkGeneratedReport {
  id : Z;
  report_type : string;
  generated_by : Z;
  store_id : option Z;
  date_from : Z;
  date_to : Z;
  parameters : pyval;
  report_status : string;
  raw_data : option pyval;
  ai_summary_text : option string;
  visualizations : option pyval;
  generated_at : Z;
  completed_at : option Z;
  download_count : Z;
  last_accessed : option Z
}.

Record ReportSchedule := mkReportSchedule {
  schedule_id : Z;
  schedule_user : Z;
  frequency : string;
  schedule_fields : pyval;
  next_run : Z
}.

Record Store := mkStore {
  reports : list GeneratedReport;
  schedules : list ReportSchedule
}.

Definition set_reports (f : list GeneratedReport → list GeneratedReport)
    (s : Store) : Store :=
  {| reports := f (reports s); schedules := schedules s |}.

Definition set_schedules (f : list ReportSchedule → list ReportSchedule)
    (s : Store) : Store :=
  {| reports := reports s; schedules := f (schedules s) |}.

(** ** Collaborators *)

(** [ReportGenerationRequestSerializer.validated_data]. *)
Record ReportRequest := mkReportRequest {
  req_report_type : string;
  req_store_id : option Z;
  req_date_from : Z;
  req_date_to : Z;
  req_parameters : option pyval
}.

(** What [ReportGenerationService.generate_report] returns. *)
Record ReportData := mkReportData {
  rd_raw_data : pyval;
  rd_ai_summary : string;
  rd_visualizations : option pyval
}.

(** What one request meets: the authenticated user, the clock, the verdict
    of the serializer on the body, and the outcome of the service call. *)
Record CreateEnv := mkCreateEnv {
  user : Z;
  now : Z;
  is_valid : pyval + ReportRequest;
  generate_report : exn + ReportData
}.

(** ** GenerateReportView.create *)

(** [GeneratedReport.objects.create(..., status='pending')]. *)
Definition GeneratedReport_create (env : CreateEnv) (v : ReportRequest)
    : M Store GeneratedReport := λ s,
  let report := {|
    id := next_pk id (reports s);
    report_type := req_report_type v;
    generated_by := user env;
    store_id := req_store_id v;
    date_from := req_date_from v;
    date_to := req_date_to v;
    parameters := default (PDict []) (req_parameters v);
    report_status := "pending";
    raw_data := None;
    ai_summary_text := None;
    visualizations := None;
    generated_at := now env;
    completed_at := None;
    download_count := 0;
    last_accessed := None |} in
  (set_reports (λ rows, rows ++ [report]) s, inr report).

Definition report_save (r : GeneratedReport) : M Store () :=
  modify (set_reports (save id r)).

(** The assignments of lines 63-67 on the instance in memory. *)
Definition with_report_data (env : CreateEnv) (report : GeneratedReport)
    (report_data : ReportData) : GeneratedReport :=
  {| id := id report;
     report_type := report_type report;
     generated_by := generated_by report;
     store_id := store_id report;
     date_from := date_from report;
     date_to := date_to report;
     parameters := parameters report;
     report_status := "completed";
     raw_data := Some (rd_raw_data report_data);
     ai_summary_text := Some (rd_ai_summary report_data);
     visualizations := Some (default (PDict []) (rd_visualizations report_data));
     generated_at := generated_at report;
     completed_at := Some (now env);
     download_count := download_count report;
     last_accessed := last_accessed report |}.

Definition with_status (st : string) (report : GeneratedReport)
    : GeneratedReport :=
  {| id := id report;
     report_type := report_type report;
     generated_by := generated_by report;
     store_id := store_id report;
     date_from := date_from report;
     date_to := date_to report;
     parameters := parameters report;
     report_status := st;
     raw_data := raw_data report;
     ai_summary_text := ai_summary_text report;
     visualizations := visualizations report;
     generated_at := generated_at report;
     completed_at := completed_at report;
     download_count := download_count report;
     last_accessed := last_accessed report |}.

(** [GeneratedReportSerializer(report).data], as far as the views fix it. *)
Definition GeneratedReportSerializer (r : GeneratedReport) : pyval :=
  PDict [("id", PInt (id r));
         ("report_type", PStr (report_type r));
         ("status", PStr (report_status r));
         ("raw_data", default PNone (raw_data r));
         ("ai_summary_text", from_option PStr PNone (ai_summary_text r));
         ("visualizations", default PNone (visualizations r));
         ("download_count", PInt (download_count r))].

(** [serializer.is_valid(raise_exception=True)]. *)
Definition is_valid_raise_exception {S A} (v : pyval + A) : M S A :=
  match v with
  | inl errors => raise (ValidationError errors)
  | inr validated_data => ret validated_data
  end.

Local Open Scope view_scope.

(** Lines 51-78: the inner [try]; [inl] is an early [return]. *)
Definition generate (env : CreateEnv) (report : GeneratedReport)
    : M Store (Response + GeneratedReport) :=
  try_except
    (do report_data <- lift (generate_report env);
     let report := with_report_data env report report_data in
     report_save report ;;
     ret (inr report))
    (λ e,
     let report := with_status "failed" report in
     report_save report ;;
     ret (inl (mkResponse (error_body "Report generation failed")
                          HTTP_500_INTERNAL_SERVER_ERROR))).

Definition create (env : CreateEnv) : M Store Response :=
  try_except
    (do validated_data <- is_valid_raise_exception (is_valid env);
     do report <- GeneratedReport_create env validated_data;
     do r <- generate env report;
     match r with
     | inl response => ret response
     | inr report =>
         ret (mkResponse (GeneratedReportSerializer report) HTTP_201_CREATED)
     end)
    (λ e, ret (mkResponse (error_body "Failed to generate report")
                          HTTP_500_INTERNAL_SERVER_ERROR)).

(** ** download_report *)

Inductive HttpResult :=
| DRFResponse (response : Response)
| HttpResponse (content content_type content_disposition : string).

Record DownloadEnv := mkDownloadEnv {
  dl_user : Z;
  dl_now : Z;
  dl_format : option string
}.

(** The double quote of [filename="..."]. *)
Definition dquote : string := String "034"%char EmptyString.

Definition attachment (name : string) : string :=
  "attachment; filename=" +:+ dquote +:+ name +:+ dquote.

Section Rendering.
(** Library functions the file contents go through. *)
Variable str : option pyval → string.
Variable get_report_type_display : string → string.
Variable strftime : Z → string → string.
Variable csv_writerow : list string → string.

(** Lines 145-171.  [len(None)] raises [TypeError]. *)
Definition render (env : DownloadEnv) (report : GeneratedReport)
    : exn + HttpResult :=
  if decide (dl_format env = Some "json") then
    inr (HttpResponse (str (raw_data report)) "application/json"
           (attachment ("report_" +:+ pretty (id report) +:+ ".json")))
  else
    match ai_summary_text report with
    | None => inl TypeError
    | Some summary =>
        let output :=
          csv_writerow ["Report Type"; "Generated Date"; "Summary"] +:+
          csv_writerow
            [get_report_type_display (report_type report);
             strftime (generated_at report) "%Y-%m-%d %H:%M";
             if (100 <? String.length summary)%nat
             then substring 0 100 summary +:+ "..."
             else summary] in
        inr (HttpResponse output "text/csv"
               (attachment ("report_" +:+ pretty (id report) +:+ ".csv")))
    end.

(** Lines 140-141 on the instance in memory. *)
Definition count_download (env : DownloadEnv) (report : GeneratedReport)
    : GeneratedReport :=
  {| id := id report;
     report_type := report_type report;
     generated_by := generated_by report;
     store_id := store_id report;
     date_from := date_from report;
     date_to := date_to report;
     parameters := parameters report;
     report_status := report_status report;
     raw_data := raw_data report;
     ai_summary_text := ai_summary_text report;
     visualizations := visualizations report;
     generated_at := generated_at report;
     completed_at := completed_at report;
     download_count := download_count report + 1;
     last_accessed := Some (dl_now env) |}.

(** [report.save(update_fields=['download_count', 'last_accessed'])]: only
    these two columns of the stored row are written. *)
Definition save_download_fields (report : GeneratedReport) : M Store () :=
  modify (set_reports (update_pk id (id report) (λ x,
    {| id := id x;
       report_type := report_type x;
       generated_by := generated_by x;
       store_id := store_id x;
       date_from := date_from x;
       date_to := date_to x;
       parameters := parameters x;
       report_status := report_status x;
       raw_data := raw_data x;
       ai_summary_text := ai_summary_text x;
       visualizations := visualizations x;
       generated_at := generated_at x;
       completed_at := completed_at x;
       download_count := download_count report;
       last_accessed := last_accessed report |}))).

Definition download_report (env : DownloadEnv) (report_id : Z)
    : M Store HttpResult :=
  try_except
    (do report <- query (λ s, get_object_or_404
         (λ r, id r = report_id ∧ generated_by r = dl_user env
               ∧ report_status r = "completed") (reports s));
     let report := count_download env report in
     save_download_fields report ;;
     lift (render env report))
    (λ e, ret (DRFResponse
                 (mkResponse (error_body "Failed to download report")
                             HTTP_500_INTERNAL_SERVER_ERROR))).
End Rendering.

(** ** ReportScheduleView.perform_create *)

(** [ReportScheduleSerializer.validated_data]: the frequency, and the other
    fields of the schedule, which the view passes on untouched. *)
Record ScheduleRequest := mkScheduleRequest {
  sr_frequency : string;
  sr_fields : pyval
}.

(** Lines 228-237. *)
Definition compute_next_run (frequency : string) (now : Z) : Z :=
  if decide (frequency = "daily") then now + timedelta 1 0
  else if decide (frequency = "weekly") then now + timedelta 0 1
  else if decide (frequency = "monthly") then now + timedelta 30 0
  else if decide (frequency = "quarterly") then now + timedelta 90 0
  else now + timedelta 1 0.

(** [serializer.save(user=..., next_run=...)] inserts the row. *)
Definition perform_create (user now : Z) (validated_data : ScheduleRequest)
    : M Store ReportSchedule := λ s,
  let frequency := sr_frequency validated_data in
  let next_run := compute_next_run frequency now in
  let row := {| schedule_id := next_pk schedule_id (schedules s);
                schedule_user := user;
                frequency := frequency;
                schedule_fields := sr_fields validated_data;
                next_run := next_run |} in
  (set_schedules (λ rows, rows ++ [row]) s, inr row).

(** ** report_status

    The view is [report_status] in the source; here the name is taken by
    the column [status] of the report row. *)

Definition report_status_view (user report_id : Z) : M Store Response :=
  try_except
    (do report <- query (λ s, get_object_or_404
         (λ r, id r = report_id ∧ generated_by r = user) (reports s));
     ret (mkResponse
            (PDict [("id", PInt (id report));
                    ("status", PStr (report_status report));
                    ("progress",
                     PInt (if decide (report_status report = "completed")
                           then 100
                           else if decide (report_status report = "processing")
                                then 50 else 0));
                    ("generated_at", PInt (generated_at report));
                    ("completed_at", from_option PInt PNone (completed_at report));
                    ("error_message",
                     if decide (report_status report = "failed")
                     then PStr "Report generation failed" else PNone)])
            HTTP_200_OK))
    (λ e, ret (mkResponse (error_body "Failed to get report status")
                          HTTP_500_INTERNAL_SERVER_ERROR)).

(** ** ReportListView and ReportDetailView *)

(** [ReportListView.get_queryset]. *)
Definition report_list_queryset (user : Z) (s : Store)
    : list GeneratedReport :=
  order_by_desc generated_at (filter (λ r, generated_by r = user) (reports s)).

(** [ReportDetailView.get_queryset]. *)
Definition report_detail_queryset (user : Z) (s : Store)
    : list GeneratedReport :=
  filter (λ r, generated_by r = user) (reports s).

(** Line 118 on the instance in memory. *)
Definition with_last_accessed (now : Z) (report : GeneratedReport)
    : GeneratedReport :=
  {| id := id report;
     report_type := report_type report;
     generated_by := generated_by report;
     store_id := store_id report;
     date_from := date_from report;
     date_to := date_to report;
     parameters := parameters report;
     report_status := report_status report;
     raw_data := raw_data report;
     ai_summary_text := ai_summary_text report;
     visualizations := visualizations report;
     generated_at := generated_at report;
     completed_at := completed_at report;
     download_count := download_count report;
     last_accessed := Some now |}.

(** [instance.save(update_fields=['last_accessed'])]: only this column of
    the stored row is written. *)
Definition save_last_accessed (report : GeneratedReport) : M Store () :=
  modify (set_reports (update_pk id (id report) (λ x,
    {| id := id x;
       report_type := report_type x;
       generated_by := generated_by x;
       store_id := store_id x;
       date_from := date_from x;
       date_to := date_to x;
       parameters := parameters x;
       report_status := report_status x;
       raw_data := raw_data x;
       ai_summary_text := ai_summary_text x;
       visualizations := visualizations x;
       generated_at := generated_at x;
       completed_at := completed_at x;
       download_count := download_count x;
       last_accessed := last_accessed report |}))).

(** [ReportDetailView.retrieve]; [get_object] looks the key up in the
    queryset of the user and raises [Http404], which the view does not
    catch. *)
Definition retrieve (user now pk_arg : Z) : M Store Response :=
  do instance <- query (λ s, get_object_or_404
       (λ r, id r = pk_arg) (report_detail_queryset user s));
  let instance := with_last_accessed now instance in
  save_last_accessed instance ;;
  ret (mkResponse (GeneratedReportSerializer instance) HTTP_200_OK).

(** [ReportScheduleView.get_queryset]. *)
Definition schedule_queryset (user : Z) (s : Store) : list ReportSchedule :=
  filter (λ r, schedule_user r = user) (schedules s).

(** ** Sample data *)

(** A completed report of user 7 with two earlier downloads, fetched once
    as JSON and once as CSV. *)
Definition sample_report : GeneratedReport :=
  {| id := 1; report_type := "sales"; generated_by := 7; store_id := None;
     date_from := 0; date_to := 1; parameters := PDict [];
     report_status := "completed"; raw_data := Some (PDict []);
     ai_summary_text := Some "steady"; visualizations := None;
     generated_at := 5; completed_at := Some 6;
     download_count := 2; last_accessed := None |}.

(** Stand-ins for the rendering library in examples. *)
Definition sample_str (v : option pyval) : string := "{}".
Definition sample_display (t : string) : string := t.
Definition sample_strftime (t : Z) (fmt : string) : string := pretty t.
Definition sample_writerow (cells : list string) : string :=
  foldr (λ c acc, c +:+ "," +:+ acc) "" cells.

End Reports.

(** * products/views.py *)

Module Products.

(** ** Models *)

Record Product := mkProduct {
  id : Z;
  slug : string;
  is_active : bool
}.

Record ProductLike := mkProductLike {
  like_id : Z;
  like_user : Z;
  like_product : Z
}.

Record UserBehaviorLog := mkUserBehaviorLog {
  log_id : Z;
  log_user : Z;
  log_product : Z;
  action_type : string;
  metadata : pyval
}.

Record Store := mkStore {
  products : list Product;
  likes : list ProductLike;
  behavior_logs : list UserBehaviorLog
}.

Definition set_likes (f : list ProductLike → list ProductLike) (s : Store)
    : Store :=
  {| products := products s; likes := f (likes s);
     behavior_logs := behavior_logs s |}.

Definition set_behavior_logs
    (f : list UserBehaviorLog → list UserBehaviorLog) (s : Store) : Store :=
  {| products := products s; likes := likes s;
     behavior_logs := f (behavior_logs s) |}.

(** ** toggle_product_like *)

(** [ProductLike.objects.get_or_create(user=..., product=...)]. *)
Definition ProductLike_get_or_create (user product : Z)
    : M Store (ProductLike * bool) := λ s,
  match objects_get (λ l, like_user l = user ∧ like_product l = product)
          (likes s) with
  | inr like => (s, inr (like, false))
  | inl DoesNotExist =>
      let like := {| like_id := next_pk like_id (likes s);
                     like_user := user;
                     like_product := product |} in
      (set_likes (λ rows, rows ++ [like]) s, inr (like, true))
  | inl e => (s, inl e)
  end.

Definition ProductLike_delete (like : ProductLike) : M Store () :=
  modify (set_likes (delete_row like_id like)).

Definition UserBehaviorLog_create (user product : Z) (action : string)
    (meta : pyval) : M Store () := λ s,
  let row := {| log_id := next_pk log_id (behavior_logs s);
                log_user := user;
                log_product := product;
                action_type := action;
                metadata := meta |} in
  (set_behavior_logs (λ rows, rows ++ [row]) s, inr ()).

Local Open Scope view_scope.

(** The view runs for an authenticated [user] ([IsAuthenticated]). *)
Definition toggle_product_like (user : Z) (slug_arg : string)
    : M Store Response :=
  try_except
    (do product <- query (λ s, get_object_or_404
         (λ p, slug p = slug_arg ∧ is_active p = true) (products s));
     do lc <- ProductLike_get_or_create user (id product);
     let '(like, created) := lc in
     do liked <- (if negb created
                  then ProductLike_delete like ;; ret false
                  else ret true);
     UserBehaviorLog_create user (id product)
       (if liked then "like" else "dislike")
       (PDict [("source", PStr "product_detail")]) ;;
     ret (mkResponse
            (PDict [("liked", PBool liked);
                    ("message", PStr (if liked then "Product liked"
                                      else "Product unliked"))])
            HTTP_200_OK))
    (λ e, ret (mkResponse (error_body "Failed to toggle like")
                          HTTP_500_INTERNAL_SERVER_ERROR)).

(** The like relation a table of like rows stands for. *)
Definition like_relation (rows : list ProductLike) : gset (Z * Z) :=
  list_to_set ((λ l, (like_user l, like_product l)) <$> rows).

(** At most one like row per (user, product). *)
Definition likes_unique (rows : list ProductLike) : Prop :=
  NoDup ((λ l, (like_user l, like_product l)) <$> rows).

(** ** Vocabulary of the statements *)

(** The pair a like row stands for. *)
Definition like_pair (l : ProductLike) : Z * Z := (like_user l, like_product l).

(** What the toggle answers. *)
Definition toggle_answer (liked : bool) : Response :=
  mkResponse
    (PDict [("liked", PBool liked);
            ("message", PStr (if liked then "Product liked"
                              else "Product unliked"))])
    HTTP_200_OK.

(** ** Sample data *)

(** User 7 toggles the like of the active product "lamp", which user 8
    likes already. *)
Definition sample_store : Store :=
  {| products := [mkProduct 1 "lamp" true; mkProduct 2 "desk" false];
     likes := [mkProductLike 1 8 1];
     behavior_logs := [] |}.

End Products.

(** * comparisons/views.py *)

Module Comparisons.

(** ** Models *)

Record ProductComparison := mkProductComparison {
  id : Z;
  user : option Z;
  comparison_criteria : pyval;
  ai_analysis : pyval;
  products : list Z
}.

Record Store := mkStore {
  catalog : list Products.Product;
  comparisons : list ProductComparison
}.

Definition set_comparisons
    (f : list ProductComparison → list ProductComparison) (s : Store)
    : Store :=
  {| catalog := catalog s; comparisons := f (comparisons s) |}.

(** ** Collaborators *)

(** [ProductComparisonRequestSerializer.validated_data]. *)
Record ComparisonRequest := mkComparisonRequest {
  product_ids : list Z;
  criteria : option pyval;
  include_ai_recommendation : option bool
}.

(** What [ComparisonService.compare_products] returns. *)
Record ComparisonResult := mkComparisonResult {
  result_criteria : pyval;
  result_analysis : pyval
}.

Record Env := mkEnv {
  request_user : option Z;
  is_valid : pyval + ComparisonRequest;
  compare_products_service : exn + ComparisonResult
}.

(** ** compare_products *)

(** [Product.objects.filter(id__in=product_ids, is_active=True)]. *)
Definition active_products_in (ids : list Z) (rows : list Products.Product)
    : list Products.Product :=
  filter (λ p, Products.id p ∈ ids ∧ Products.is_active p = true) rows.

Definition ProductComparison_create (env : Env) (result : ComparisonResult)
    : M Store ProductComparison := λ s,
  let comparison := {| id := next_pk id (comparisons s);
                       user := request_user env;
                       comparison_criteria := result_criteria result;
                       ai_analysis := result_analysis result;
                       products := [] |} in
  (set_comparisons (λ rows, rows ++ [comparison]) s, inr comparison).

(** [comparison.products.set(products)]: the relation of the comparison
    becomes the rows of the queryset. *)
Definition products_set (comparison : ProductComparison)
    (rows : list Products.Product) : M Store ProductComparison := λ s,
  let f := λ c, {| id := id c;
                   user := user c;
                   comparison_criteria := comparison_criteria c;
                   ai_analysis := ai_analysis c;
                   products := Products.id <$> rows |} in
  (set_comparisons (update_pk id (id comparison) f) s, inr (f comparison)).

(** [ProductComparisonSerializer(comparison).data], as far as the view
    fixes it. *)
Definition ProductComparisonSerializer (c : ProductComparison) : pyval :=
  PDict [("id", PInt (id c));
         ("products", PList (PInt <$> products c));
         ("comparison_criteria", comparison_criteria c);
         ("ai_analysis", ai_analysis c)].

Local Open Scope view_scope.

Definition compare_products (env : Env) : M Store Response :=
  try_except
    (match is_valid env with
     | inl errors => ret (mkResponse errors HTTP_400_BAD_REQUEST)
     | inr validated_data =>
         let product_ids := product_ids validated_data in
         do products <- query (λ s,
           inr (active_products_in product_ids (catalog s)));
         if decide (length products ≠ length product_ids) then
           ret (mkResponse
                  (error_body "One or more products not found or inactive")
                  HTTP_404_NOT_FOUND)
         else
           do comparison_result <- lift (compare_products_service env);
           do comparison <- ProductComparison_create env comparison_result;
           do comparison <- products_set comparison products;
           ret (mkResponse (ProductComparisonSerializer comparison)
                           HTTP_201_CREATED)
     end)
    (λ e, ret (mkResponse (error_body "Failed to compare products")
                          HTTP_500_INTERNAL_SERVER_ERROR)).

(** ** Vocabulary of the statements *)

(** The ids that refer to an active product. *)
Definition active_ids (rows : list Products.Product) : list Z :=
  Products.id <$> filter (λ p, Products.is_active p = true) rows.

(** Some submitted id refers to a product that is missing or inactive. *)
Definition some_unavailable (ids : list Z) (rows : list Products.Product)
    : Prop :=
  ∃ i, i ∈ ids ∧ i ∉ active_ids rows.

(** ** Sample data *)

(** A catalog with two active products and an inactive one. *)
Definition sample_catalog : list Products.Product :=
  [Products.mkProduct 1 "lamp" true; Products.mkProduct 2 "desk" true;
   Products.mkProduct 3 "sofa" false].

Definition sample_request (ids : list Z) : pyval + ComparisonRequest :=
  inr (mkComparisonRequest ids None None).

Definition sample_result : ComparisonResult :=
  mkComparisonResult (PList [PStr "price"]) (PStr "the desk is cheaper").

End Comparisons.

(** * recommendations/views.py *)

Module Recommendations.

(** ** Models *)

Record RecommendationSession := mkRecommendationSession {
  id : Z;
  user : option Z;
  session_id : option string;
  recommendation_type : string
}.

(** [result_session_id] is the column [session_id] of the foreign key
    [session]. *)
Record RecommendationResult := mkRecommendationResult {
  result_id : Z;
  result_session_id : Z;
  product_id : Z;
  score : pyval;
  position : Z;
  algorithm_used : string;
  was_clicked : bool;
  click_timestamp : option Z;
  was_added_to_cart : bool;
  was_purchased : bool
}.

(** The tables, and the cache: each key holds a value and the instant it
    expires at (seconds). *)
Record Store := mkStore {
  sessions : list RecommendationSession;
  results : list RecommendationResult;
  cache : gmap string (pyval * Z)
}.

Definition set_sessions
    (f : list RecommendationSession → list RecommendationSession)
    (s : Store) : Store :=
  {| sessions := f (sessions s); results := results s; cache := cache s |}.

Definition set_results
    (f : list RecommendationResult → list RecommendationResult)
    (s : Store) : Store :=
  {| sessions := sessions s; results := f (results s); cache := cache s |}.

Definition set_cache (f : gmap string (pyval * Z) → gmap string (pyval * Z))
    (s : Store) : Store :=
  {| sessions := sessions s; results := results s; cache := f (cache s) |}.

(** ** django.core.cache *)

(** What a key holds at instant [now]: [None] when the key is missing or
    its entry has expired. *)
Definition cache_lookup (key : string) (now : Z)
    (c : gmap string (pyval * Z)) : pyval :=
  match c !! key with
  | Some (value, expires) => if decide (now < expires) then value else PNone
  | None => PNone
  end.

(** [cache.get(key)] at instant [now]. *)
Definition cache_get (key : string) (now : Z) : M Store pyval := λ s,
  (s, inr (cache_lookup key now (cache s))).

(** [cache.set(key, value, timeout)] at instant [now]. *)
Definition cache_set (key : string) (value : pyval) (timeout now : Z)
    : M Store () :=
  modify (set_cache (λ c, <[key := (value, now + timeout)]> c)).

(** ** Collaborators *)

(** [RecommendationRequestSerializer.validated_data]. *)
Record RecommendationRequest := mkRecommendationRequest {
  limit : option Z;
  category_id : option Z;
  exclude_products : option (list Z);
  request_session_id : option string
}.

(** One entry of the list the recommendation service returns. *)
Record Recommendation := mkRecommendation {
  rec_product_id : Z;
  rec_score : pyval;
  rec_algorithm : string
}.

(** The entry as it appears in the response body. *)
Definition recommendation_data (rec : Recommendation) : pyval :=
  PDict [("product_id", PInt (rec_product_id rec));
         ("score", rec_score rec);
         ("algorithm", PStr (rec_algorithm rec))].

(** What one request meets: the clock, the verdict of the serializer on
    the query string, the outcome of the service call, and what the
    database answers to the insertion of a result row apart from the pair
    constraint below: [Some exc] when a constraint of the model's
    declaration, which is not in src/, rejects the row (the foreign key of
    [product_id], a column type), [None] when the row is accepted. *)
Record Env := mkEnv {
  now : Z;
  is_valid : pyval + RecommendationRequest;
  get_recommendations : exn + list Recommendation;
  create_error : RecommendationResult → option exn
}.

(** The two endpoints: [general_recommendations] is open to anonymous
    requests, [personalized_recommendations] runs for an authenticated
    user. *)
Inductive Endpoint :=
| General (request_user : option Z)
| Personalized (request_user : Z).

(** Lines 36 and 102. *)
Definition cache_key (e : Endpoint) (v : RecommendationRequest) : string :=
  match e with
  | General _ =>
      "general_recommendations_" +:+ pretty (default 10 (limit v))
  | Personalized uid =>
      "personalized_recommendations_" +:+ pretty uid +:+ "_" +:+
      pretty (default 10 (limit v))
  end.

(** Lines 78 and 145. *)
Definition cache_timeout (e : Endpoint) : Z :=
  match e with General _ => 900 | Personalized _ => 300 end.

Definition session_user (e : Endpoint) : option Z :=
  match e with General u => u | Personalized uid => Some uid end.

Definition type_name (e : Endpoint) : string :=
  match e with General _ => "general" | Personalized _ => "personalized" end.

Definition description (e : Endpoint) : string :=
  match e with
  | General _ => "Trending and popular products"
  | Personalized _ => "Based on your preferences and behavior"
  end.

Definition failure_message (e : Endpoint) : string :=
  match e with
  | General _ => "Failed to generate recommendations"
  | Personalized _ => "Failed to generate personalized recommendations"
  end.

(** ** The recommendation views *)

Definition RecommendationSession_create (e : Endpoint)
    (v : RecommendationRequest) : M Store RecommendationSession := λ s,
  let session := {| id := next_pk id (sessions s);
                    user := session_user e;
                    session_id := request_session_id v;
                    recommendation_type := type_name e |} in
  (set_sessions (λ rows, rows ++ [session]) s, inr session).

Definition result_pair (r : RecommendationResult) : Z * Z :=
  (result_session_id r, product_id r).

Section Schema.
(** The views do not say whether the model [RecommendationResult] declares
    [(session, product)] unique; the schema is therefore a parameter: with
    [true] an insertion that repeats a pair raises [IntegrityError], with
    [false] it goes through. *)
Variable unique_together : bool.

Definition RecommendationResult_create (env : Env)
    (session : RecommendationSession) (rec : Recommendation) (pos : Z)
    : M Store RecommendationResult := λ s,
  let row := {| result_id := next_pk result_id (results s);
                result_session_id := id session;
                product_id := rec_product_id rec;
                score := rec_score rec;
                position := pos;
                algorithm_used := rec_algorithm rec;
                was_clicked := false;
                click_timestamp := None;
                was_added_to_cart := false;
                was_purchased := false |} in
  match create_error env row with
  | Some exc => (s, inl exc)
  | None =>
      if unique_together
         && bool_decide (result_pair row ∈ (result_pair <$> results s))
      then (s, inl IntegrityError)
      else (set_results (λ rows, rows ++ [row]) s, inr row)
  end.

Local Open Scope view_scope.

(** [for idx, rec in enumerate(recommendations)], entered at [idx]: every
    insertion is committed on its own, and the first one that raises ends
    the loop. *)
Fixpoint store_results (env : Env) (session : RecommendationSession)
    (idx : Z) (recommendations : list Recommendation) : M Store () :=
  match recommendations with
  | [] => ret ()
  | rec :: rest =>
      RecommendationResult_create env session rec (idx + 1) ;;
      store_results env session (idx + 1) rest
  end.

Definition response_data (e : Endpoint) (session : RecommendationSession)
    (recommendations : list Recommendation) : pyval :=
  PDict [("session_id", PInt (id session));
         ("recommendations", PList (recommendation_data <$> recommendations));
         ("total_count", PInt (Z.of_nat (length recommendations)));
         ("algorithm_info",
          PDict [("type", PStr (type_name e));
                 ("description", PStr (description e))])].

(** The body the two views share, line for line. *)
Definition recommendations_view (e : Endpoint) (env : Env)
    : M Store Response :=
  try_except
    (match is_valid env with
     | inl errors => ret (mkResponse errors HTTP_400_BAD_REQUEST)
     | inr validated_data =>
         let key := cache_key e validated_data in
         do cached_result <- cache_get key (now env);
         if truthy cached_result then
           ret (mkResponse cached_result HTTP_200_OK)
         else
           do recommendations <- lift (get_recommendations env);
           do session <- RecommendationSession_create e validated_data;
           store_results env session 0 recommendations ;;
           let response_data := response_data e session recommendations in
           cache_set key response_data (cache_timeout e) (now env) ;;
           ret (mkResponse response_data HTTP_200_OK)
     end)
    (λ exc, ret (mkResponse (error_body (failure_message e))
                            HTTP_500_INTERNAL_SERVER_ERROR)).

Definition general_recommendations (request_user : option Z) (env : Env)
    : M Store Response :=
  recommendations_view (General request_user) env.

Definition personalized_recommendations (request_user : Z) (env : Env)
    : M Store Response :=
  recommendations_view (Personalized request_user) env.
End Schema.

(** Modelled from the spec: the declaration of the model
    [RecommendationResult] is not in src/.  The spec's data model gives it
    the invariant of at most one result per (session, product) pair, which
    a Django model holds by declaring the pair unique: the table rejects
    the insertion of a second row of a pair. *)
Definition result_unique_together : bool := true.

(** ** track_recommendation_interaction *)

(** [RecommendationFeedbackSerializer.validated_data]. *)
Record Feedback := mkFeedback {
  fb_session_id : Z;
  fb_product_id : Z;
  fb_action : string;
  fb_timestamp : option Z
}.

Record TrackEnv := mkTrackEnv {
  track_now : Z;
  track_is_valid : pyval + Feedback
}.

Definition set_clicked (timestamp : Z) (r : RecommendationResult)
    : RecommendationResult :=
  {| result_id := result_id r; result_session_id := result_session_id r;
     product_id := product_id r; score := score r; position := position r;
     algorithm_used := algorithm_used r;
     was_clicked := true; click_timestamp := Some timestamp;
     was_added_to_cart := was_added_to_cart r;
     was_purchased := was_purchased r |}.

Definition set_added_to_cart (r : RecommendationResult)
    : RecommendationResult :=
  {| result_id := result_id r; result_session_id := result_session_id r;
     product_id := product_id r; score := score r; position := position r;
     algorithm_used := algorithm_used r;
     was_clicked := was_clicked r; click_timestamp := click_timestamp r;
     was_added_to_cart := true;
     was_purchased := was_purchased r |}.

Definition set_purchased (r : RecommendationResult) : RecommendationResult :=
  {| result_id := result_id r; result_session_id := result_session_id r;
     product_id := product_id r; score := score r; position := position r;
     algorithm_used := algorithm_used r;
     was_clicked := was_clicked r; click_timestamp := click_timestamp r;
     was_added_to_cart := was_added_to_cart r;
     was_purchased := true |}.

Local Open Scope view_scope.

(** Lines 169-178: the inner [try], which only catches [DoesNotExist];
    [inl] is the early [return]. *)
Definition find_result (v : Feedback)
    : M Store (Response + RecommendationResult) :=
  try_except
    (do result <- query (λ s, objects_get
         (λ r, result_session_id r = fb_session_id v
               ∧ product_id r = fb_product_id v) (results s));
     ret (inr result))
    (λ exc, match exc with
            | DoesNotExist =>
                ret (inl (mkResponse (error_body "Recommendation not found")
                                     HTTP_404_NOT_FOUND))
            | _ => raise exc
            end).

Definition track_recommendation_interaction (env : TrackEnv)
    : M Store Response :=
  try_except
    (match track_is_valid env with
     | inl errors => ret (mkResponse errors HTTP_400_BAD_REQUEST)
     | inr validated_data =>
         do found <- find_result validated_data;
         match found with
         | inl response => ret response
         | inr result =>
             let action := fb_action validated_data in
             let timestamp :=
               default (track_now env) (fb_timestamp validated_data) in
             let result :=
               if decide (action = "click") then set_clicked timestamp result
               else if decide (action = "add_to_cart")
                    then set_added_to_cart result
               else if decide (action = "purchase") then set_purchased result
               else result in
             modify (set_results (save result_id result)) ;;
             ret (mkResponse (PDict [("status", PStr "success")])
                             HTTP_200_OK)
         end
     end)
    (λ exc, ret (mkResponse (error_body "Failed to track interaction")
                            HTTP_500_INTERNAL_SERVER_ERROR)).

(** ** Vocabulary of the statements *)

(** At most one result row per (session, product). *)
Definition pairs_unique (rows : list RecommendationResult) : Prop :=
  NoDup (result_pair <$> rows).

Definition not_found : Response :=
  mkResponse (error_body "Recommendation not found") HTTP_404_NOT_FOUND.

Definition success : Response :=
  mkResponse (PDict [("status", PStr "success")]) HTTP_200_OK.

(** The other actions: anything but the three the view tests for. *)
Definition unrecognized (action : string) : Prop :=
  action ≠ "click" ∧ action ≠ "add_to_cart" ∧ action ≠ "purchase".

(** Every result row belongs to a session row that is stored. *)
Definition sessions_known (s : Store) : Prop :=
  ∀ sid, sid ∈ (result_session_id <$> results s) →
         sid ∈ (id <$> sessions s).

(** What the tables satisfy between requests: keys of sessions and of
    result rows are unique, a (session, product) pair has at most one
    result row, and every result row belongs to a stored session. *)
Definition consistent (s : Store) : Prop :=
  pk_unique id (sessions s)
  ∧ pk_unique result_id (results s) ∧ pairs_unique (results s)
  ∧ sessions_known s.

(** Row [i] of [created] holds entry [i] of the service list for session
    [sid], at position [idx + 1 + i]. *)
Definition ranked_from (sid idx : Z) (recommendations : list Recommendation)
    (created : list RecommendationResult) : Prop :=
  ∀ (i : nat) row, created !! i = Some row →
    result_session_id row = sid
    ∧ position row = idx + 1 + Z.of_nat i
    ∧ ∃ rec, recommendations !! i = Some rec
             ∧ product_id row = rec_product_id rec
             ∧ score row = rec_score rec
             ∧ algorithm_used row = rec_algorithm rec.

(** No entry of the list repeats a product, and none is stored already for
    the session. *)
Definition fresh_for (session : RecommendationSession)
    (recommendations : list Recommendation)
    (rows : list RecommendationResult) : Prop :=
  NoDup (rec_product_id <$> recommendations)
  ∧ ∀ rec, rec ∈ recommendations →
           (id session, rec_product_id rec) ∉ (result_pair <$> rows).

(** The service list suits the schema: the table rejects repeated pairs,
    or the list names every product at most once. *)
Definition admissible (unique_together : bool) (env : Env) : Prop :=
  unique_together = true
  ∨ ∀ recommendations, get_recommendations env = inr recommendations →
                       NoDup (rec_product_id <$> recommendations).

Definition service_list (env : Env) : list Recommendation :=
  match get_recommendations env with
  | inr recommendations => recommendations
  | inl _ => []
  end.

Definition empty_store : Store :=
  {| sessions := []; results := []; cache := ∅ |}.

(** The stores the three views lead to from the empty one, when every
    service list suits the schema. *)
Inductive reachable (unique_together : bool) : Store → Prop :=
| reachable_empty : reachable unique_together empty_store
| reachable_recommend s e env :
    reachable unique_together s → admissible unique_together env →
    reachable unique_together
      (fst (recommendations_view unique_together e env s))
| reachable_track s env :
    reachable unique_together s →
    reachable unique_together (fst (track_recommendation_interaction env s)).

(** ** Sample data *)

(** Feedback for a pair nobody recommended, against a store with one
    result row. *)
Definition sample_result : RecommendationResult :=
  {| result_id := 1; result_session_id := 1; product_id := 5;
     score := PInt 9; position := 1; algorithm_used := "trending";
     was_clicked := false; click_timestamp := None;
     was_added_to_cart := false; was_purchased := false |}.

Definition sample_store : Store :=
  {| sessions := [mkRecommendationSession 1 None None "general"];
     results := [sample_result];
     cache := ∅ |}.

(** A first request for ten general recommendations, answered by the
    service with two products. *)
Definition sample_request (category : option Z) : RecommendationRequest :=
  {| limit := None; category_id := category; exclude_products := None;
     request_session_id := Some "abc" |}.

Definition sample_recommendations : list Recommendation :=
  [mkRecommendation 5 (PInt 9) "trending";
   mkRecommendation 6 (PInt 7) "popular"].

Definition first_env : Env :=
  mkEnv 1000 (inr (sample_request None)) (inr sample_recommendations)
        (λ _, None).

(** The service names product 5 twice. *)
Definition repeating_env : Env :=
  mkEnv 1000 (inr (sample_request None))
    (inr [mkRecommendation 5 (PInt 9) "trending";
          mkRecommendation 5 (PInt 9) "popular"])
    (λ _, None).

(** A second request within fifteen minutes, for another category, while
    the service is down. *)
Definition second_env : Env :=
  mkEnv 1500 (inr (sample_request (Some 3))) (inl (ServiceError "down"))
        (λ _, None).

(** The same request, when the database rejects every row for product 6:
    no such product is stored. *)
Definition rejecting_env : Env :=
  mkEnv 1000 (inr (sample_request None)) (inr sample_recommendations)
        (λ row, if decide (product_id row = 6) then Some IntegrityError
                else None).

Definition first_store : Store :=
  fst (general_recommendations false None first_env empty_store).

Definition first_data : pyval :=
  response_data (General None)
    (mkRecommendationSession 1 None (Some "abc") "general")
    sample_recommendations.

(** A third request at the instant the first entry expires at, with the
    service back. *)
Definition third_env : Env :=
  mkEnv 1900 (inr (sample_request None)) (inr sample_recommendations)
        (λ _, None).

End Recommendations.

(** * products/views.py: the catalog views *)

Module Catalog.

(** ** Models *)

(** A product row with the columns these views use. *)
Record Product := mkProduct {
  id : Z;
  slug : string;
  is_active : bool;
  store : Z;
  view_count : Z
}.

(** A row of the model [Store]. *)
Record StoreRow := mkStoreRow {
  store_id : Z;
  owner : Z;
  store_is_active : bool
}.

Record User := mkUser {
  user_id : Z;
  is_store_owner : bool
}.

Record Db := mkDb {
  products : list Product;
  stores : list StoreRow;
  behavior_logs : list Products.UserBehaviorLog
}.

Definition set_products (f : list Product → list Product) (s : Db) : Db :=
  {| products := f (products s); stores := stores s;
     behavior_logs := behavior_logs s |}.

Definition set_behavior_logs
    (f : list Products.UserBehaviorLog → list Products.UserBehaviorLog)
    (s : Db) : Db :=
  {| products := products s; stores := stores s;
     behavior_logs := f (behavior_logs s) |}.

(** ** ProductDetailView.retrieve *)

(** [Product.objects.filter(is_active=True)], the queryset of the view. *)
Definition detail_queryset (s : Db) : list Product :=
  filter (λ p, is_active p = true) (products s).

(** [Product.objects.filter(pk=...).update(view_count=F('view_count') + 1)]:
    the stored count of the row is raised, whatever the instance holds. *)
Definition increment_view_count (pk_arg : Z) : M Db () :=
  modify (set_products (update_pk id pk_arg (λ p,
    {| id := id p; slug := slug p; is_active := is_active p;
       store := store p; view_count := view_count p + 1 |}))).

Definition UserBehaviorLog_create (user product : Z) (action : string)
    (meta : pyval) : M Db () := λ s,
  let row := {| Products.log_id := next_pk Products.log_id (behavior_logs s);
                Products.log_user := user;
                Products.log_product := product;
                Products.action_type := action;
                Products.metadata := meta |} in
  (set_behavior_logs (λ rows, rows ++ [row]) s, inr ()).

Section Serializer.
(** [ProductSerializer(instance).data]. *)
Variable ProductSerializer : Product → pyval.

Local Open Scope view_scope.

(** [request_user] is the authenticated user, if any.  [get_object] looks
    the slug up in the queryset and raises [Http404], which the view does
    not catch. *)
Definition retrieve (request_user : option Z) (slug_arg : string)
    : M Db Response :=
  do instance <- query (λ s, get_object_or_404
       (λ p, slug p = slug_arg) (detail_queryset s));
  increment_view_count (id instance) ;;
  match request_user with
  | Some user =>
      UserBehaviorLog_create user (id instance) "view"
        (PDict [("source", PStr "product_detail")])
  | None => ret ()
  end ;;
  ret (mkResponse (ProductSerializer instance) HTTP_200_OK).
End Serializer.

(** ** ProductCreateView.perform_create *)

(** What the view raises: the builtin [PermissionError], or what the
    lookup raises. *)
Inductive create_error :=
| PermissionError (msg : string)
| LookupFailed (e : exn).

(** [serializer.validated_data] as far as the rows here carry it. *)
Record ProductData := mkProductData {
  data_slug : string;
  data_is_active : bool
}.

(** Lines 242-248; [serializer.save(store=store)] inserts the row. *)
Definition perform_create (user : User) (validated_data : ProductData)
    (s : Db) : Db * (create_error + Product) :=
  if negb (is_store_owner user) then
    (s, inl (PermissionError "Only store owners can create products"))
  else
    match get_object_or_404
            (λ st, owner st = user_id user ∧ store_is_active st = true)
            (stores s) with
    | inl e => (s, inl (LookupFailed e))
    | inr st =>
        let product := {| id := next_pk id (products s);
                          slug := data_slug validated_data;
                          is_active := data_is_active validated_data;
                          store := store_id st;
                          view_count := 0 |} in
        (set_products (λ rows, rows ++ [product]) s, inr product)
    end.

(** ** ProductUpdateView.get_queryset *)

(** [Product.objects.filter(store__owner=user)]: the products whose store
    row belongs to the user. *)
Definition update_queryset (user : Z) (s : Db) : list Product :=
  filter (λ p, Exists (λ st, store_id st = store p ∧ owner st = user)
                 (stores s))
    (products s).

(** ** Sample data *)

Definition sample_db : Db :=
  {| products := [mkProduct 1 "lamp" true 1 4; mkProduct 2 "desk" false 1 0];
     stores := [mkStoreRow 1 7 true; mkStoreRow 2 8 false];
     behavior_logs := [] |}.

Definition sample_serializer (p : Product) : pyval :=
  PDict [("id", PInt (id p)); ("slug", PStr (slug p));
         ("view_count", PInt (view_count p))].

End Catalog.

(** * comparisons/views.py: stores and history *)

Module StoreComparisons.

Definition HTTP_401_UNAUTHORIZED : Z := 401.

(** ** Models *)

Record StoreComparison := mkStoreComparison {
  id : Z;
  user : option Z;
  comparison_type : string;
  ai_insights : pyval;
  stores : list Z;
  created_at : Z
}.

(** A product comparison with its column [created_at], which
    [compare_products] never reads. *)
Record ProductComparisonRow := mkProductComparisonRow {
  comparison : Comparisons.ProductComparison;
  product_created_at : Z
}.

Record Db := mkDb {
  store_rows : list Catalog.StoreRow;
  product_comparisons : list ProductComparisonRow;
  store_comparisons : list StoreComparison
}.

Definition set_store_comparisons
    (f : list StoreComparison → list StoreComparison) (s : Db) : Db :=
  {| store_rows := store_rows s;
     product_comparisons := product_comparisons s;
     store_comparisons := f (store_comparisons s) |}.

(** ** Collaborators *)

(** [StoreComparisonRequestSerializer.validated_data]. *)
Record StoreRequest := mkStoreRequest {
  store_ids : list Z;
  requested_type : string;
  category_id : option Z
}.

(** One request: the caller, what the request serializer answers, what
    [ComparisonService.compare_stores] does, and the value the model gives
    [created_at]. *)
Record Env := mkEnv {
  request_user : option Z;
  is_valid : pyval + StoreRequest;
  compare_stores_service : exn + pyval;
  clock : Z
}.

(** ** compare_stores *)

(** [Store.objects.filter(id__in=store_ids, is_active=True)]. *)
Definition active_stores_in (ids : list Z) (rows : list Catalog.StoreRow)
    : list Catalog.StoreRow :=
  filter (λ r, Catalog.store_id r ∈ ids ∧ Catalog.store_is_active r = true)
         rows.

Definition StoreComparison_create (env : Env) (type : string)
    (insights : pyval) : M Db StoreComparison := λ s,
  let row := {| id := next_pk id (store_comparisons s);
                user := request_user env;
                comparison_type := type;
                ai_insights := insights;
                stores := [];
                created_at := clock env |} in
  (set_store_comparisons (λ rows, rows ++ [row]) s, inr row).

(** [comparison.stores.set(stores)]. *)
Definition stores_set (row : StoreComparison)
    (rows : list Catalog.StoreRow) : M Db StoreComparison := λ s,
  let f := λ c, {| id := id c;
                   user := user c;
                   comparison_type := comparison_type c;
                   ai_insights := ai_insights c;
                   stores := Catalog.store_id <$> rows;
                   created_at := created_at c |} in
  (set_store_comparisons (update_pk id (id row) f) s, inr (f row)).

(** [StoreComparisonSerializer(comparison).data], as far as the view
    fixes it. *)
Definition StoreComparisonSerializer (c : StoreComparison) : pyval :=
  PDict [("id", PInt (id c));
         ("stores", PList (PInt <$> stores c));
         ("comparison_type", PStr (comparison_type c));
         ("ai_insights", ai_insights c)].

Local Open Scope view_scope.

Definition compare_stores (env : Env) : M Db Response :=
  try_except
    (match is_valid env with
     | inl errors => ret (mkResponse errors HTTP_400_BAD_REQUEST)
     | inr validated_data =>
         let store_ids := store_ids validated_data in
         let comparison_type := requested_type validated_data in
         do stores <- query (λ s,
           inr (active_stores_in store_ids (store_rows s)));
         if decide (length stores ≠ length store_ids) then
           ret (mkResponse
                  (error_body "One or more stores not found or inactive")
                  HTTP_404_NOT_FOUND)
         else
           do comparison_result <- lift (compare_stores_service env);
           do comparison <- StoreComparison_create env comparison_type
                              comparison_result;
           do comparison <- stores_set comparison stores;
           ret (mkResponse (StoreComparisonSerializer comparison)
                           HTTP_201_CREATED)
     end)
    (λ e, ret (mkResponse (error_body "Failed to compare stores")
                          HTTP_500_INTERNAL_SERVER_ERROR)).

(** ** get_comparison_history *)

(** [ProductComparison.objects.filter(user=request.user)
    .order_by('-created_at')[:10]]. *)
Definition product_history (u : Z) (s : Db) : list ProductComparisonRow :=
  take 10 (order_by_desc product_created_at
             (filter (λ c, Comparisons.user (comparison c) = Some u)
                     (product_comparisons s))).

(** [StoreComparison.objects.filter(user=request.user)
    .order_by('-created_at')[:10]]. *)
Definition store_history (u : Z) (s : Db) : list StoreComparison :=
  take 10 (order_by_desc created_at
             (filter (λ c, user c = Some u) (store_comparisons s))).

Definition get_comparison_history (request_user : option Z)
    : M Db Response :=
  match request_user with
  | None =>
      ret (mkResponse (error_body "Authentication required")
                      HTTP_401_UNAUTHORIZED)
  | Some u =>
      try_except
        (do product_comparisons <- query (λ s, inr (product_history u s));
         do store_comparisons <- query (λ s, inr (store_history u s));
         ret (mkResponse
                (PDict
                   [("product_comparisons",
                     PList ((Comparisons.ProductComparisonSerializer
                               ∘ comparison) <$> product_comparisons));
                    ("store_comparisons",
                     PList (StoreComparisonSerializer
                              <$> store_comparisons))])
                HTTP_200_OK))
        (λ e, ret (mkResponse
                     (error_body "Failed to fetch comparison history")
                     HTTP_500_INTERNAL_SERVER_ERROR))
  end.

(** ** Vocabulary of the statements *)

(** The ids that refer to an active store. *)
Definition active_store_ids (rows : list Catalog.StoreRow) : list Z :=
  Catalog.store_id
    <$> filter (λ r, Catalog.store_is_active r = true) rows.

(** ** Sample data *)

(** Two active stores and a closed one. *)
Definition sample_stores : list Catalog.StoreRow :=
  [Catalog.mkStoreRow 1 7 true; Catalog.mkStoreRow 2 8 true;
   Catalog.mkStoreRow 3 9 false].

Definition sample_db : Db := mkDb sample_stores [] [].

Definition sample_env (ids : list Z) : Env :=
  mkEnv (Some 7) (inr (mkStoreRequest ids "overall" None))
        (inr (PStr "the first store ships faster")) 1000.

End StoreComparisons.

(** * products/urls.py and comparisons/urls.py *)

Module Urls.

(** ** django.urls.path

    A route is literal text with converters in it; the only converter
    these files use is [<slug:name>], which stands for one or more of the
    characters [-a-zA-Z0-9_].  A route matches a path when it matches all
    of it, and a request goes to the first pattern of the list that
    matches. *)

Inductive token :=
| Text (text : string)
| SlugParam (name : string).

Definition is_slug_char (c : ascii) : bool :=
  let n := nat_of_ascii c in
  ((48 <=? n) && (n <=? 57) || (65 <=? n) && (n <=? 90)
   || (97 <=? n) && (n <=? 122) || (n =? 45) || (n =? 95))%nat.

(** The rest of [s] after the literal [t], if [s] starts with it. *)
Fixpoint strip_prefix (t s : string) : option string :=
  match t, s with
  | EmptyString, _ => Some s
  | String a t', String b s' =>
      if decide (a = b) then strip_prefix t' s' else None
  | String _ _, EmptyString => None
  end.

(** The ways a slug can be read off the front of [s]: every non-empty run
    of slug characters that starts it, with what follows, longest first. *)
Fixpoint slug_prefixes (s : string) : list (string * string) :=
  match s with
  | EmptyString => []
  | String c rest =>
      if is_slug_char c
      then ((λ '(v, after), (String c v, after)) <$> slug_prefixes rest)
           ++ [(String c EmptyString, rest)]
      else []
  end.

(** The first alternative that leads to a match. *)
Fixpoint first_match {A B : Type} (f : A → option B) (l : list A)
    : option B :=
  match l with
  | [] => None
  | x :: rest => match f x with Some y => Some y | None => first_match f rest end
  end.

(** The keyword arguments of the match, if the route matches the path. *)
Fixpoint match_route (route : list token) (path : string)
    : option (list (string * string)) :=
  match route with
  | [] => if decide (path = "") then Some [] else None
  | Text t :: rest =>
      match strip_prefix t path with
      | Some after => match_route rest after
      | None => None
      end
  | SlugParam name :: rest =>
      first_match
        (λ '(v, after), cons (name, v) <$> match_route rest after)
        (slug_prefixes path)
  end.

(** The view (by the name of its pattern) and the keyword arguments. *)
Fixpoint resolve (urlpatterns : list (list token * string)) (path : string)
    : option (string * list (string * string)) :=
  match urlpatterns with
  | [] => None
  | (route, name) :: rest =>
      match match_route route path with
      | Some kwargs => Some (name, kwargs)
      | None => resolve rest path
      end
  end.

(** ** products/urls.py *)

Definition products_urlpatterns : list (list token * string) :=
  [([Text "categories/"], "category_list");
   ([Text "brands/"], "brand_list");
   ([Text "stores/"], "store_list");
   ([Text "stores/"; SlugParam "slug"; Text "/"], "store_detail");
   ([Text ""], "product_list");
   ([Text "create/"], "product_create");
   ([SlugParam "slug"; Text "/"], "product_detail");
   ([SlugParam "slug"; Text "/update/"], "product_update");
   ([SlugParam "slug"; Text "/similar/"], "similar_products");
   ([SlugParam "slug"; Text "/like/"], "toggle_product_like");
   ([Text "best/"], "best_products")].

(** ** comparisons/urls.py *)

Definition comparisons_urlpatterns : list (list token * string) :=
  [([Text "products/"], "compare_products");
   ([Text "stores/"], "compare_stores");
   ([Text "history/"], "comparison_history")].

(** ** Vocabulary of the statements *)

(** The first path segments that other patterns claim before the product
    detail pattern is tried. *)
Definition reserved_slugs : list string :=
  ["categories"; "brands"; "stores"; "create"].

(** A non-empty string of slug characters. *)
Definition is_slug (v : string) : Prop :=
  v ≠ "" ∧ string_forall (λ c, is_slug_char c = true) v.

End Urls.

(** * Properties

    From here on: lemmas about tables, then the properties of each
    application's views. *)

(** ** Tables *)

(** A condition that pins a duplicate-free key down selects one row. *)
Lemma filter_key_unique {Row K : Type} (key : Row → K) (P : Row → Prop)
    `{∀ r, Decision (P r)} (rows : list Row) (r : Row) :
  NoDup (key <$> rows) → r ∈ rows → P r → (∀ x, P x → key x = key r) →
  filter P rows = [r].
Proof.
  intros Hnd Hin HP Hkey.
  induction rows as [|x rows IH]; [by apply elem_of_nil in Hin|].
  rewrite fmap_cons in Hnd. apply NoDup_cons in Hnd as [Hx Hnd].
  rewrite filter_cons. apply elem_of_cons in Hin as [<-|Hin].
  - rewrite decide_True by done. f_equal.
    destruct (filter P rows) as [|y l] eqn:Hf; [done|].
    assert (y ∈ filter P rows) as Hy by (rewrite Hf; apply list_elem_of_here).
    apply list_elem_of_filter in Hy as [HPy Hy]. destruct Hx.
    rewrite <- (Hkey y HPy). apply list_elem_of_fmap. by exists y.
  - rewrite decide_False; [by apply IH|].
    intros HPx. destruct Hx. rewrite (Hkey x HPx).
    apply list_elem_of_fmap. by exists r.
Qed.

(** A duplicate-free key stays duplicate-free on a selection of the rows. *)
Lemma key_unique_filter {Row K : Type} (key : Row → K) (P : Row → Prop)
    `{∀ r, Decision (P r)} (rows : list Row) :
  NoDup (key <$> rows) → NoDup (key <$> filter P rows).
Proof.
  intros Hnd. eapply sublist_NoDup; [exact Hnd|].
  apply fmap_sublist, sublist_filter.
Qed.

(** Rows of a table with a duplicate-free key are told apart by it. *)
Lemma key_unique_inj {Row K : Type} `{EqDecision K} (key : Row → K)
    (rows : list Row) (x y : Row) :
  NoDup (key <$> rows) → x ∈ rows → y ∈ rows → key x = key y → x = y.
Proof.
  intros Hnd Hx Hy Heq.
  assert (filter (λ z, key z = key y) rows = [y]) as Hf
    by (by apply (filter_key_unique key)).
  assert (x ∈ filter (λ z, key z = key y) rows) as Hin
    by (by apply list_elem_of_filter).
  rewrite Hf in Hin. by apply list_elem_of_singleton in Hin.
Qed.

(** ** Strings *)

Lemma length_append (a b : string) :
  String.length (a +:+ b) = (String.length a + String.length b)%nat.
Proof. induction a as [|c a IH]; simpl; [done|]. by rewrite IH. Qed.

(** [s[:n]] has [n] characters, or all of [s] when it is shorter. *)
Lemma length_substring_0 (n : nat) (s : string) :
  String.length (substring 0 n s) = (n `min` String.length s)%nat.
Proof.
  revert s. induction n as [|n IH]; intros [|c s]; simpl; try done.
  by rewrite IH.
Qed.

(** The decimal form of a number holds digits, after a sign at most. *)
Lemma pretty_N_go_chars (P : ascii → Prop) (x : N) (s : string) :
  (∀ d, P (pretty_N_char d)) → string_forall P s →
  string_forall P (pretty_N_go x s).
Proof.
  intros Hdigit. revert s.
  induction (N.lt_wf_0 x) as [x _ IH]; intros s Hs.
  assert (x = 0 ∨ 0 < x)%N as [->|Hpos] by lia.
  - by rewrite pretty_N_go_0.
  - rewrite pretty_N_go_step by done. apply IH; [by apply N.div_lt|].
    by split.
Qed.

Lemma pretty_Z_chars (P : ascii → Prop) (z : Z) :
  (∀ d, P (pretty_N_char d)) → P "-"%char → string_forall P (pretty z).
Proof.
  intros Hdigit Hdash.
  assert (∀ p : positive, string_forall P (pretty p)) as Hpos.
  { intros p. unfold pretty, pretty_positive, pretty, pretty_N.
    rewrite decide_False by done. by apply pretty_N_go_chars. }
  destruct z as [|p|p]; unfold pretty, pretty_Z.
  - split; [|done]. apply (Hdigit 0%N).
  - apply Hpos.
  - split; [done|apply Hpos].
Qed.

(** Two strings that are cut by the first occurrence of a separator agree
    on both sides of it. *)
Lemma split_at_separator (sep : ascii) (a b c d : string) :
  string_forall (λ x, x ≠ sep) a → string_forall (λ x, x ≠ sep) c →
  a +:+ String sep b = c +:+ String sep d → a = c ∧ b = d.
Proof.
  revert c. induction a as [|x a IH]; intros [|y c]; simpl.
  - intros _ _ [= ->]. done.
  - intros _ [Hy _] [= Heq _]. by destruct Hy.
  - intros [Hx _] _ [= Heq _]. by destruct Hx.
  - intros [_ Ha] [_ Hc] [= -> Heq].
    destruct (IH c Ha Hc Heq) as [-> ->]. done.
Qed.

(** ** Ordering *)

Lemma order_by_desc_Permutation {Row : Type} (column : Row → Z)
    (rows : list Row) :
  order_by_desc column rows ≡ₚ rows.
Proof. apply merge_sort_Permutation. Qed.

Lemma order_by_desc_sorted {Row : Type} (column : Row → Z)
    (rows : list Row) :
  StronglySorted (λ a b, column b ≤ column a) (order_by_desc column rows).
Proof.
  apply StronglySorted_merge_sort.
  - intros a b c Hab Hbc. lia.
  - intros a b. lia.
Qed.

Section TableFacts.
Context {Row : Type} (pk : Row → Z).

Lemma pk_lt_next_pk rows r : r ∈ rows → pk r < next_pk pk rows.
Proof.
  unfold next_pk. induction rows as [|x rows IH]; intros Hin.
  - by apply elem_of_nil in Hin.
  - rewrite fmap_cons, foldr_cons.
    apply elem_of_cons in Hin as [->|Hin]; [lia|].
    specialize (IH Hin). lia.
Qed.

Lemma next_pk_fresh rows : next_pk pk rows ∉ (pk <$> rows).
Proof.
  intros Hin. apply list_elem_of_fmap in Hin as (r & Heq & Hin).
  apply pk_lt_next_pk in Hin. lia.
Qed.

Lemma pk_unique_snoc rows r :
  pk_unique pk rows → pk r = next_pk pk rows → pk_unique pk (rows ++ [r]).
Proof.
  unfold pk_unique. intros Hnd Hpk. rewrite fmap_app. simpl.
  apply NoDup_app. split; [done|]. split.
  - intros k Hk Hk'. apply list_elem_of_singleton in Hk'. subst k.
    rewrite Hpk in Hk. by apply next_pk_fresh in Hk.
  - apply NoDup_singleton.
Qed.

Lemma update_pk_pks k f rows :
  (∀ x, pk (f x) = pk x) → pk <$> update_pk pk k f rows = pk <$> rows.
Proof.
  intros Hf. unfold update_pk. rewrite <- list_fmap_compose.
  apply list_fmap_ext. intros i x _. simpl. case_decide; [apply Hf|done].
Qed.

Lemma update_pk_fresh k f rows :
  k ∉ (pk <$> rows) → update_pk pk k f rows = rows.
Proof.
  intros Hk. unfold update_pk. rewrite <- (list_fmap_id rows) at 2.
  apply list_fmap_ext. intros i x Hx. simpl. case_decide as Heq; [|done].
  destruct Hk. apply list_elem_of_fmap. exists x. split; [done|].
  by eapply list_elem_of_lookup_2.
Qed.

Lemma update_pk_snoc k f rows r :
  k ∉ (pk <$> rows) → pk r = k →
  update_pk pk k f (rows ++ [r]) = rows ++ [f r].
Proof.
  intros Hk Hr. pose proof (update_pk_fresh k f rows Hk) as Hrows.
  unfold update_pk in *. rewrite fmap_app, Hrows. simpl.
  by rewrite decide_True.
Qed.

Lemma save_snoc r' rows r :
  pk r = next_pk pk rows → pk r' = pk r → save pk r' (rows ++ [r]) = rows ++ [r'].
Proof.
  intros Hr Hr'. unfold save. apply update_pk_snoc.
  - rewrite Hr', Hr. apply next_pk_fresh.
  - by rewrite Hr'.
Qed.

Lemma elem_of_update_pk f rows r :
  r ∈ rows → f r ∈ update_pk pk (pk r) f rows.
Proof.
  intros Hin. unfold update_pk. apply list_elem_of_fmap. exists r.
  by rewrite decide_True.
Qed.

(** Saving a new version of a stored row keeps every projection it
    agrees on with the stored one. *)
Lemma save_keys {K : Type} (key : Row → K) r r' rows :
  pk_unique pk rows → r ∈ rows → pk r' = pk r → key r' = key r →
  key <$> save pk r' rows = key <$> rows.
Proof.
  intros Hpk Hin Hid Hkey. unfold save, update_pk.
  rewrite <- list_fmap_compose. apply list_fmap_ext. intros i x Hx. simpl.
  case_decide as Heq; [|done]. rewrite Hkey. f_equal.
  apply (key_unique_inj pk rows); [done..| |congruence].
  by eapply list_elem_of_lookup_2.
Qed.

Lemma elem_of_save r r' rows : r ∈ rows → pk r' = pk r → r' ∈ save pk r' rows.
Proof.
  intros Hin Hid. unfold save. rewrite Hid.
  exact (elem_of_update_pk (λ _, r') rows r Hin).
Qed.

(** A condition that pins the key down selects exactly the row with it. *)
Lemma filter_pk_unique (P : Row → Prop) `{∀ r, Decision (P r)} rows r :
  pk_unique pk rows → r ∈ rows → P r → (∀ x, P x → pk x = pk r) →
  filter P rows = [r].
Proof. apply filter_key_unique. Qed.

Lemma filter_all (P : Row → Prop) `{∀ r, Decision (P r)} (rows : list Row) :
  (∀ x, x ∈ rows → P x) → filter P rows = rows.
Proof.
  induction rows as [|x rows IH]; intros HP; [done|].
  rewrite filter_cons, decide_True by (apply HP; apply list_elem_of_here).
  f_equal. apply IH. intros y Hy. apply HP. by apply list_elem_of_further.
Qed.

(** Deleting the row that was inserted last restores the table. *)
Lemma delete_row_snoc rows r :
  pk r = next_pk pk rows → delete_row pk r (rows ++ [r]) = rows.
Proof.
  intros Hr. unfold delete_row. rewrite filter_app, filter_cons, filter_nil.
  rewrite decide_False by (by intros []). rewrite app_nil_r.
  apply filter_all. intros x Hx. apply pk_lt_next_pk in Hx. lia.
Qed.

Lemma objects_get_found (P : Row → Prop) `{∀ r, Decision (P r)} rows r :
  objects_get P rows = inr r → r ∈ rows ∧ P r ∧ filter P rows = [r].
Proof.
  unfold objects_get.
  destruct (filter P rows) as [|x [|y l]] eqn:Hf; try done.
  intros [= ->].
  assert (r ∈ filter P rows) as Hin by (rewrite Hf; apply list_elem_of_here).
  apply list_elem_of_filter in Hin as [HP Hin]. done.
Qed.

Lemma filter_none (P : Row → Prop) `{∀ r, Decision (P r)} rows :
  (∀ r, r ∈ rows → ¬ P r) → filter P rows = [].
Proof.
  intros Hno. destruct (filter P rows) as [|x l] eqn:Hf; [done|].
  assert (x ∈ filter P rows) as Hin by (rewrite Hf; apply list_elem_of_here).
  apply list_elem_of_filter in Hin as [HP Hin]. by destruct (Hno x Hin).
Qed.

Lemma objects_get_missing (P : Row → Prop) `{∀ r, Decision (P r)} rows :
  (∀ r, r ∈ rows → ¬ P r) → objects_get P rows = inl DoesNotExist.
Proof. intros Hno. unfold objects_get. by rewrite filter_none. Qed.
(** An update that keeps a column keeps the column of the table. *)
Lemma update_pk_column {K : Type} (column : Row → K) k f rows :
  (∀ x, column (f x) = column x) →
  column <$> update_pk pk k f rows = column <$> rows.
Proof.
  intros Hf. unfold update_pk. rewrite <- list_fmap_compose.
  apply list_fmap_ext. intros i x _. simpl. case_decide; [apply Hf|done].
Qed.

(** No stored row has the key the next insertion will take. *)
Lemma filter_next_pk (Q : Row → Prop) `{∀ r, Decision (Q r)}
    (rows : list Row) :
  filter (λ r, pk r = next_pk pk rows ∧ Q r) rows = [].
Proof.
  apply filter_none. intros r Hr [Heq _]. apply pk_lt_next_pk in Hr. lia.
Qed.

End TableFacts.

(** ** reports/views.py *)

Module ReportsFacts.
Import Reports.

(** C2.  A request that passes validation first inserts a row with status
    pending.  When the service call raises, that row ends with status
    failed and no raw data, and the answer is a 500; when it returns, the
    row ends with status completed, with completed_at set to the clock and
    raw_data and ai_summary_text taken from the service result, and the
    answer is a 201.  No other row is touched. *)
Theorem create_report_lifecycle (u t : Z) (v : ReportRequest)
    (outcome : exn + ReportData) (s : Store) :
  let env := mkCreateEnv u t (inr v) outcome in
  ∃ pending final response,
    GeneratedReport_create env v s
      = (set_reports (λ rows, rows ++ [pending]) s, inr pending)
    ∧ report_status pending = "pending"
    ∧ create env s = (set_reports (λ rows, rows ++ [final]) s, inr response)
    ∧ id final = id pending
    ∧ match outcome with
      | inl _ =>
          report_status final = "failed"
          ∧ raw_data final = None
          ∧ status response = HTTP_500_INTERNAL_SERVER_ERROR
      | inr report_data =>
          report_status final = "completed"
          ∧ completed_at final = Some t
          ∧ raw_data final = Some (rd_raw_data report_data)
          ∧ ai_summary_text final = Some (rd_ai_summary report_data)
          ∧ status response = HTTP_201_CREATED
      end.
Proof.
  intros env.
  destruct outcome as [e|report_data]; eexists _, _, _;
    (split; [reflexivity|]); (split; [reflexivity|]);
    unfold create, generate, try_except, bind, is_valid_raise_exception,
      lift, report_save, modify, ret, set_reports; simpl;
    (erewrite save_snoc; [|reflexivity..]);
    (split; [reflexivity|]); simpl; done.
Qed.

(** C6.  The schedule row that [perform_create] inserts has a next run
    that lies exactly 1 day after the clock reading for daily, 7 days for
    weekly, 30 for monthly, 90 for quarterly and 1 day for every other
    frequency. *)
Theorem schedule_next_run_interval (user now : Z)
    (validated_data : ScheduleRequest) (s : Store) :
  ∃ row,
    perform_create user now validated_data s
      = (set_schedules (λ rows, rows ++ [row]) s, inr row)
    ∧ frequency row = sr_frequency validated_data
    ∧ next_run row - now =
        microseconds_per_day *
        (if decide (frequency row = "daily") then 1
         else if decide (frequency row = "weekly") then 7
         else if decide (frequency row = "monthly") then 30
         else if decide (frequency row = "quarterly") then 90
         else 1).
Proof.
  eexists. split; [reflexivity|]. split; [reflexivity|].
  cbn [next_run frequency]. unfold compute_next_run, timedelta.
  repeat case_decide; lia.
Qed.

Example next_run_weekly :
  compute_next_run "weekly" 1700000000000000 - 1700000000000000
  = 7 * 86400000000.
Proof. reflexivity. Qed.

Example next_run_unknown :
  compute_next_run "yearly" 0 = 86400000000.
Proof. reflexivity. Qed.

Section DownloadFacts.
Variable str : option pyval → string.
Variable get_report_type_display : string → string.
Variable strftime : Z → string → string.
Variable csv_writerow : list string → string.

Abbreviation download :=
  (download_report str get_report_type_display strftime csv_writerow).

(** One download of a completed report by its owner: whatever the format,
    and whether or not the file can be rendered, the stored row has been
    counted once and stamped with the clock. *)
Lemma download_completed env s r :
  pk_unique id (reports s) → r ∈ reports s →
  generated_by r = dl_user env → report_status r = "completed" →
  ∃ s' response,
    download env (id r) s = (s', inr response)
    ∧ pk_unique id (reports s')
    ∧ count_download env r ∈ reports s'
    ∧ schedules s' = schedules s.
Proof.
  intros Hpk Hin Hown Hst.
  assert (get_object_or_404
            (λ x, id x = id r ∧ generated_by x = dl_user env
                  ∧ report_status x = "completed") (reports s) = inr r) as Hget.
  { unfold get_object_or_404, objects_get.
    rewrite (filter_pk_unique id _ (reports s) r); try done.
    by intros x [? _]. }
  unfold download_report, try_except, bind, query, save_download_fields,
    modify, lift, ret.
  rewrite Hget. simpl.
  set (s' := set_reports _ s).
  assert (pk_unique id (reports s')) as Hpk'.
  { unfold pk_unique, s'. simpl. by rewrite update_pk_pks. }
  assert (count_download env r ∈ reports s') as Hin'.
  { unfold s'. simpl.
    match goal with
    | |- _ ∈ update_pk _ _ ?f _ =>
        exact (elem_of_update_pk id f (reports s) r Hin)
    end. }
  destruct (render _ _ _ _ env (count_download env r)); eauto 10.
Qed.

Lemma download_not_completed env s r :
  pk_unique id (reports s) → r ∈ reports s → report_status r ≠ "completed" →
  download env (id r) s
  = (s, inr (DRFResponse
               (mkResponse (error_body "Failed to download report")
                           HTTP_500_INTERNAL_SERVER_ERROR))).
Proof.
  intros Hpk Hin Hst.
  unfold download_report, try_except, bind, query, get_object_or_404.
  rewrite objects_get_missing; [done|].
  intros x Hx (Hid & _ & Hc). destruct Hst.
  assert (filter (λ y, id y = id r) (reports s) = [r]) as Hf
    by (apply (filter_pk_unique id); auto).
  assert (x ∈ filter (λ y, id y = id r) (reports s)) as Hx'
    by (by apply list_elem_of_filter).
  rewrite Hf in Hx'. apply list_elem_of_singleton in Hx'. by subst x.
Qed.

(** C7.  Two downloads of a completed report by its owner leave its row
    with download_count raised by exactly 2, and last_accessed holds the
    clock of the first call after the first and of the second after the
    second.  A download of a report that is not completed answers with an
    error response (the catch-all 500), not a file, and leaves the store,
    hence download_count, as it was. *)
Theorem download_report_counts (env1 env2 : DownloadEnv) (s : Store)
    (r : GeneratedReport) :
  pk_unique id (reports s) → r ∈ reports s →
  (report_status r = "completed" →
   generated_by r = dl_user env1 → dl_user env2 = dl_user env1 →
   ∃ s1 s2 response1 response2 r1 r2,
     download env1 (id r) s = (s1, inr response1)
     ∧ download env2 (id r) s1 = (s2, inr response2)
     ∧ objects_get (λ x, id x = id r) (reports s1) = inr r1
     ∧ objects_get (λ x, id x = id r) (reports s2) = inr r2
     ∧ download_count r1 = download_count r + 1
     ∧ last_accessed r1 = Some (dl_now env1)
     ∧ download_count r2 = download_count r + 2
     ∧ last_accessed r2 = Some (dl_now env2))
  ∧ (report_status r ≠ "completed" →
     ∃ response,
       download env1 (id r) s = (s, inr (DRFResponse response))
       ∧ status response = HTTP_500_INTERNAL_SERVER_ERROR
       ∧ data response = error_body "Failed to download report").
Proof.
  intros Hpk Hin. split.
  - intros Hst Hown Huser.
    destruct (download_completed env1 s r) as (s1 & resp1 & H1 & Hpk1 & Hin1 & _);
      [done..|].
    set (r1 := count_download env1 r) in *.
    destruct (download_completed env2 s1 r1) as (s2 & resp2 & H2 & Hpk2 & Hin2 & _);
      [done| done | by rewrite Huser | done |].
    set (r2 := count_download env2 r1) in *.
    exists s1, s2, resp1, resp2, r1, r2.
    split; [done|]. split; [done|].
    unfold objects_get.
    rewrite (filter_pk_unique id _ (reports s1) r1) by done.
    rewrite (filter_pk_unique id _ (reports s2) r2) by done.
    repeat split; simpl; lia.
  - intros Hst. eexists. split; [by apply download_not_completed|done].
Qed.

End DownloadFacts.

Abbreviation sample_download :=
  (download_report sample_str sample_display sample_strftime sample_writerow).

Lemma download_report_counts_witness :
  ∃ s1 s2 response1 response2 r1 r2,
    sample_download (mkDownloadEnv 7 100 (Some "json")) 1
      (mkStore [sample_report] []) = (s1, inr response1)
    ∧ sample_download (mkDownloadEnv 7 200 None) 1 s1 = (s2, inr response2)
    ∧ objects_get (λ x, id x = 1) (reports s1) = inr r1
    ∧ objects_get (λ x, id x = 1) (reports s2) = inr r2
    ∧ download_count r1 = 2 + 1
    ∧ last_accessed r1 = Some 100
    ∧ download_count r2 = 2 + 2
    ∧ last_accessed r2 = Some 200.
Proof.
  refine (proj1 (download_report_counts sample_str sample_display
            sample_strftime sample_writerow (mkDownloadEnv 7 100 (Some "json"))
            (mkDownloadEnv 7 200 None) (mkStore [sample_report] [])
            sample_report _ _) _ _ _).
  - unfold pk_unique. simpl. apply NoDup_singleton.
  - simpl. apply list_elem_of_here.
  - reflexivity.
  - reflexivity.
  - reflexivity.
Defined.

(** *** What a generated report looks like afterwards *)

(** Right after [create], the status view shows the owner a finished
    report: completed with progress 100 and no error message when the
    service returned, failed with progress 0 and the error message when it
    raised; the progress is never the 50 of a report in processing.  Any
    other user is answered with the generic 500. *)
Theorem status_after_create (u t : Z) (v : ReportRequest)
    (outcome : exn + ReportData) (s : Store) :
  let s1 := fst (create (mkCreateEnv u t (inr v) outcome) s) in
  let report_id := next_pk id (reports s) in
  report_status_view u report_id s1
  = (s1, inr (mkResponse
                (PDict [("id", PInt report_id);
                        ("status",
                         PStr match outcome with
                              | inl _ => "failed" | inr _ => "completed"
                              end);
                        ("progress",
                         PInt match outcome with
                              | inl _ => 0 | inr _ => 100
                              end);
                        ("generated_at", PInt t);
                        ("completed_at",
                         match outcome with
                         | inl _ => PNone | inr _ => PInt t
                         end);
                        ("error_message",
                         match outcome with
                         | inl _ => PStr "Report generation failed"
                         | inr _ => PNone
                         end)])
                HTTP_200_OK))
  ∧ ∀ u', u' ≠ u →
      report_status_view u' report_id s1
      = (s1, inr (mkResponse (error_body "Failed to get report status")
                             HTTP_500_INTERNAL_SERVER_ERROR)).
Proof.
  intros s1 report_id.
  assert (∃ final, reports s1 = reports s ++ [final]
                   ∧ id final = report_id ∧ generated_by final = u
                   ∧ generated_at final = t
                   ∧ report_status final
                     = match outcome with
                       | inl _ => "failed" | inr _ => "completed"
                       end
                   ∧ completed_at final
                     = match outcome with
                       | inl _ => None | inr _ => Some t
                       end)
    as (final & Hrows & Hid & Hown & Hgen & Hst & Hdone).
  { unfold s1, create, generate, try_except, bind, is_valid_raise_exception,
      lift, report_save, modify, ret, set_reports.
    destruct outcome as [e|report_data]; simpl;
      (erewrite save_snoc; [|reflexivity..]); eexists; (split; [done|]);
      done. }
  assert (∀ u', filter (λ r, id r = report_id ∧ generated_by r = u')
                  (reports s1)
                = if decide (u' = u) then [final] else []) as Hfilter.
  { intros u'. rewrite Hrows, filter_app, filter_cons, filter_nil.
    unfold report_id.
    rewrite (filter_next_pk id (λ r, generated_by r = u')). simpl.
    destruct (decide (u' = u)) as [->|Hne].
    - by rewrite decide_True.
    - rewrite decide_False; [done|]. intros [_ Heq]. congruence. }
  split.
  - unfold report_status_view, try_except, bind, query, get_object_or_404,
      objects_get. rewrite Hfilter, decide_True by done. simpl.
    unfold ret. rewrite Hid, Hgen, Hst, Hdone. by destruct outcome.
  - intros u' Hne.
    unfold report_status_view, try_except, bind, query, get_object_or_404,
      objects_get. by rewrite Hfilter, decide_False by done.
Qed.

(** The detail view of a report by its owner stamps [last_accessed] on
    that row and leaves every download count and every status as they
    were; asked by anybody else it raises [Http404] and writes nothing. *)
Theorem retrieve_stamps_last_accessed (u clock : Z) (s : Store)
    (r : GeneratedReport) :
  pk_unique id (reports s) → r ∈ reports s →
  (generated_by r = u →
   ∃ s' response r',
     retrieve u clock (id r) s = (s', inr response)
     ∧ status response = HTTP_200_OK
     ∧ objects_get (λ x, id x = id r) (reports s') = inr r'
     ∧ last_accessed r' = Some clock
     ∧ download_count <$> reports s' = download_count <$> reports s
     ∧ report_status <$> reports s' = report_status <$> reports s
     ∧ id <$> reports s' = id <$> reports s)
  ∧ (generated_by r ≠ u → retrieve u clock (id r) s = (s, inl Http404)).
Proof.
  intros Hpk Hin. split.
  - intros Hown.
    assert (get_object_or_404 (λ x, id x = id r) (report_detail_queryset u s)
            = inr r) as Hget.
    { unfold get_object_or_404, objects_get, report_detail_queryset.
      rewrite (filter_key_unique id _ _ r); try done.
      - by apply key_unique_filter.
      - by apply list_elem_of_filter. }
    unfold retrieve, bind, query, save_last_accessed, modify, ret.
    rewrite Hget. simpl.
    eexists _, _, (with_last_accessed clock r).
    split; [reflexivity|]. split; [done|]. simpl.
    split; [|split; [done|repeat split; by apply update_pk_column]].
    unfold objects_get.
    rewrite (filter_pk_unique id _ _ (with_last_accessed clock r)); try done.
    + unfold pk_unique. by rewrite update_pk_pks.
    + match goal with
      | |- _ ∈ update_pk _ _ ?f _ =>
          exact (elem_of_update_pk id f (reports s) r Hin)
      end.
  - intros Hown.
    unfold retrieve, bind, query, get_object_or_404, report_detail_queryset.
    rewrite objects_get_missing; [done|].
    intros x Hx Hid. apply list_elem_of_filter in Hx as [Hxu Hx].
    assert (x = r) by (by apply (key_unique_inj id (reports s))).
    by subst x.
Qed.

Lemma retrieve_stamps_last_accessed_witness :
  ∃ s' response r',
    retrieve 7 300 1 (mkStore [sample_report] []) = (s', inr response)
    ∧ status response = HTTP_200_OK
    ∧ objects_get (λ x, id x = 1) (reports s') = inr r'
    ∧ last_accessed r' = Some 300
    ∧ download_count <$> reports s' = [2]
    ∧ report_status <$> reports s' = ["completed"]
    ∧ id <$> reports s' = [1].
Proof.
  refine (proj1 (retrieve_stamps_last_accessed 7 300
            (mkStore [sample_report] []) sample_report _ _) _).
  - unfold pk_unique. simpl. apply NoDup_singleton.
  - simpl. apply list_elem_of_here.
  - reflexivity.
Defined.

(** A report is downloaded by its owner only: for any other user the
    answer is the generic 500, no file, and the count stays. *)
Theorem download_refused_to_other_user (str : option pyval → string)
    (get_report_type_display : string → string)
    (strftime : Z → string → string) (csv_writerow : list string → string)
    (env : DownloadEnv) (s : Store) (r : GeneratedReport) :
  pk_unique id (reports s) → r ∈ reports s → generated_by r ≠ dl_user env →
  download_report str get_report_type_display strftime csv_writerow env
    (id r) s
  = (s, inr (DRFResponse
               (mkResponse (error_body "Failed to download report")
                           HTTP_500_INTERNAL_SERVER_ERROR))).
Proof.
  intros Hpk Hin Hown.
  unfold download_report, try_except, bind, query, get_object_or_404.
  rewrite objects_get_missing; [done|].
  intros x Hx (Hid & Hu & _). destruct Hown.
  assert (x = r) by (by apply (key_unique_inj id (reports s))).
  by subst x.
Qed.

Lemma download_refused_to_other_user_witness :
  sample_download (mkDownloadEnv 8 100 (Some "json")) 1
    (mkStore [sample_report] [])
  = (mkStore [sample_report] [],
     inr (DRFResponse
            (mkResponse (error_body "Failed to download report")
                        HTTP_500_INTERNAL_SERVER_ERROR))).
Proof.
  apply (download_refused_to_other_user sample_str sample_display
           sample_strftime sample_writerow
           (mkDownloadEnv 8 100 (Some "json")) (mkStore [sample_report] [])
           sample_report).
  - unfold pk_unique. simpl. apply NoDup_singleton.
  - simpl. apply list_elem_of_here.
  - simpl. lia.
Defined.

(** The report [create] has just inserted is in the list of its owner,
    which is still ordered from the newest report down, and the lists of
    all other users are what they were. *)
Theorem created_report_is_listed (u t : Z) (v : ReportRequest)
    (outcome : exn + ReportData) (s : Store) :
  let s1 := fst (create (mkCreateEnv u t (inr v) outcome) s) in
  ∃ final,
    id final = next_pk id (reports s) ∧ generated_at final = t
    ∧ report_list_queryset u s1 ≡ₚ final :: report_list_queryset u s
    ∧ StronglySorted (λ a b, generated_at b ≤ generated_at a)
        (report_list_queryset u s1)
    ∧ ∀ u', u' ≠ u → report_list_queryset u' s1 = report_list_queryset u' s.
Proof.
  intros s1.
  assert (∃ final, reports s1 = reports s ++ [final]
                   ∧ id final = next_pk id (reports s)
                   ∧ generated_by final = u ∧ generated_at final = t)
    as (final & Hrows & Hid & Hown & Hgen).
  { unfold s1, create, generate, try_except, bind, is_valid_raise_exception,
      lift, report_save, modify, ret, set_reports.
    destruct outcome as [e|report_data]; simpl;
      (erewrite save_snoc; [|reflexivity..]); eexists; (split; [done|]);
      done. }
  exists final. split; [done|]. split; [done|].
  unfold report_list_queryset. rewrite Hrows.
  split; [|split].
  - rewrite !order_by_desc_Permutation, filter_app, filter_cons, filter_nil.
    rewrite decide_True by done. by rewrite Permutation_app_comm.
  - apply order_by_desc_sorted.
  - intros u' Hne. rewrite filter_app, filter_cons, filter_nil.
    rewrite decide_False by congruence. by rewrite app_nil_r.
Qed.

(** In the CSV file the summary cell is the summary itself when it has at
    most 100 characters, and otherwise its first 100 characters followed
    by three dots: never more than 103 characters. *)
Theorem csv_summary_is_bounded (str : option pyval → string)
    (get_report_type_display : string → string)
    (strftime : Z → string → string) (csv_writerow : list string → string)
    (env : DownloadEnv) (report : GeneratedReport) (summary : string) :
  dl_format env ≠ Some "json" → ai_summary_text report = Some summary →
  ∃ cell,
    render str get_report_type_display strftime csv_writerow env report
    = inr (HttpResponse
             (csv_writerow ["Report Type"; "Generated Date"; "Summary"] +:+
              csv_writerow [get_report_type_display (report_type report);
                            strftime (generated_at report) "%Y-%m-%d %H:%M";
                            cell])
             "text/csv"
             (attachment ("report_" +:+ pretty (id report) +:+ ".csv")))
    ∧ (String.length cell ≤ 103)%nat
    ∧ ((String.length summary ≤ 100)%nat → cell = summary)
    ∧ ((100 < String.length summary)%nat →
       cell = substring 0 100 summary +:+ "..."
       ∧ String.length cell = 103%nat).
Proof.
  intros Hfmt Hsum. unfold render. rewrite decide_False, Hsum by done.
  destruct (100 <? String.length summary)%nat eqn:Hlen.
  - apply Nat.ltb_lt in Hlen. eexists. split; [reflexivity|].
    rewrite length_append, length_substring_0, Nat.min_l by lia.
    change (String.length "...") with 3%nat.
    split; [lia|]. split; [lia|]. intros _. split; [done|lia].
  - apply Nat.ltb_ge in Hlen. eexists. split; [reflexivity|].
    split; [lia|]. split; [done|lia].
Qed.

Lemma csv_summary_is_bounded_witness :
  ∃ cell,
    render sample_str sample_display sample_strftime sample_writerow
      (mkDownloadEnv 7 100 None) sample_report
    = inr (HttpResponse
             (sample_writerow ["Report Type"; "Generated Date"; "Summary"] +:+
              sample_writerow [sample_display "sales";
                               sample_strftime 5 "%Y-%m-%d %H:%M"; cell])
             "text/csv"
             (attachment ("report_" +:+ pretty 1 +:+ ".csv")))
    ∧ (String.length cell ≤ 103)%nat
    ∧ ((String.length "steady" ≤ 100)%nat → cell = "steady")
    ∧ ((100 < String.length "steady")%nat →
       cell = substring 0 100 "steady" +:+ "..."
       ∧ String.length cell = 103%nat).
Proof.
  apply (csv_summary_is_bounded sample_str sample_display sample_strftime
           sample_writerow (mkDownloadEnv 7 100 None) sample_report "steady").
  - discriminate.
  - reflexivity.
Defined.

(** A schedule that [perform_create] inserts is listed for its owner,
    after the schedules the owner had, and for nobody else; its key is new
    and its next run lies between one day and ninety days ahead. *)
Theorem schedule_listed_for_owner (u clock : Z) (v : ScheduleRequest)
    (s : Store) :
  ∃ row s',
    perform_create u clock v s = (s', inr row)
    ∧ schedule_queryset u s' = schedule_queryset u s ++ [row]
    ∧ (∀ u', u' ≠ u → schedule_queryset u' s' = schedule_queryset u' s)
    ∧ (schedule_id row ∉ (schedule_id <$> schedules s))
    ∧ clock + microseconds_per_day ≤ next_run row
      ≤ clock + 90 * microseconds_per_day.
Proof.
  eexists _, _. split; [reflexivity|].
  unfold schedule_queryset. cbn [schedules set_schedules].
  split; [|split; [|split]].
  - rewrite filter_app, filter_cons, filter_nil. by rewrite decide_True.
  - intros u' Hne. rewrite filter_app, filter_cons, filter_nil.
    rewrite decide_False by (simpl; congruence). by rewrite app_nil_r.
  - apply next_pk_fresh.
  - cbn [next_run]. unfold compute_next_run, timedelta, microseconds_per_day.
    repeat case_decide; lia.
Qed.

(** Primary keys of reports stay unique under every view that writes
    reports, whatever the request: generation, download and detail. *)
Theorem report_keys_stay_unique (str : option pyval → string)
    (get_report_type_display : string → string)
    (strftime : Z → string → string) (csv_writerow : list string → string)
    (cenv : CreateEnv) (denv : DownloadEnv) (report_id u clock : Z)
    (s : Store) :
  pk_unique id (reports s) →
  pk_unique id (reports (fst (create cenv s)))
  ∧ pk_unique id
      (reports (fst (download_report str get_report_type_display strftime
                       csv_writerow denv report_id s)))
  ∧ pk_unique id (reports (fst (retrieve u clock report_id s))).
Proof.
  intros Hpk. split; [|split].
  - unfold create, generate, try_except, bind, is_valid_raise_exception,
      lift, report_save, modify, ret, raise, set_reports.
    destruct (is_valid cenv) as [errors|v]; [done|]. simpl.
    destruct (generate_report cenv) as [e|report_data]; simpl;
      (erewrite save_snoc; [|reflexivity..]); by apply pk_unique_snoc.
  - unfold download_report, try_except, bind, query, save_download_fields,
      modify, lift, ret.
    destruct (get_object_or_404 _ _) as [e|report]; [done|]. simpl.
    destruct (render _ _ _ _ _ _); simpl; unfold pk_unique;
      by rewrite update_pk_pks.
  - unfold retrieve, bind, query, save_last_accessed, modify, ret.
    destruct (get_object_or_404 _ _) as [e|report]; [done|]. simpl.
    unfold pk_unique. by rewrite update_pk_pks.
Qed.

Lemma report_keys_stay_unique_witness :
  pk_unique id
    (reports (fst (create (mkCreateEnv 7 9
                             (inr (mkReportRequest "sales" None 0 1 None))
                             (inl (ServiceError "down")))
                     (mkStore [sample_report] []))))
  ∧ pk_unique id
      (reports (fst (sample_download (mkDownloadEnv 7 100 None) 1
                       (mkStore [sample_report] []))))
  ∧ pk_unique id
      (reports (fst (retrieve 7 300 1 (mkStore [sample_report] [])))).
Proof.
  apply (report_keys_stay_unique sample_str sample_display sample_strftime
           sample_writerow
           (mkCreateEnv 7 9 (inr (mkReportRequest "sales" None 0 1 None))
              (inl (ServiceError "down")))
           (mkDownloadEnv 7 100 None) 1 7 300 (mkStore [sample_report] [])).
  unfold pk_unique. simpl. apply NoDup_singleton.
Defined.

End ReportsFacts.

(** ** products/views.py *)

Module ProductsFacts.
Import Products.

Lemma elem_of_like_relation rows x :
  x ∈ like_relation rows ↔ ∃ l, l ∈ rows ∧ like_pair l = x.
Proof.
  unfold like_relation. rewrite elem_of_list_to_set, list_elem_of_fmap.
  unfold like_pair. naive_solver.
Qed.

Lemma like_relation_snoc rows l :
  like_relation (rows ++ [l]) = like_relation rows ∪ {[like_pair l]}.
Proof.
  unfold like_relation. rewrite fmap_app, list_to_set_app_L. simpl.
  unfold like_pair. set_solver.
Qed.

(** The rows [get_or_create] looks at: none, or the one row of the pair. *)
Lemma likes_of_pair rows u pid :
  likes_unique rows →
  let matching := filter (λ l, like_user l = u ∧ like_product l = pid) rows in
  (matching = [] ∧ (u, pid) ∉ like_relation rows)
  ∨ (∃ l, matching = [l] ∧ l ∈ rows ∧ like_pair l = (u, pid)).
Proof.
  intros Hnd matching.
  destruct matching as [|l rest] eqn:Hm.
  - left. split; [done|]. rewrite elem_of_like_relation. intros (l & Hl & Hp).
    assert (l ∈ matching) as Hin.
    { apply list_elem_of_filter. unfold like_pair in Hp. naive_solver. }
    rewrite Hm in Hin. by apply elem_of_nil in Hin.
  - right. exists l.
    assert (l ∈ matching) as Hin by (rewrite Hm; apply list_elem_of_here).
    apply list_elem_of_filter in Hin as [[Hu Hp] Hin].
    assert (like_pair l = (u, pid)) as Hpair by (unfold like_pair; congruence).
    split; [|done]. rewrite <- Hm. unfold matching.
    apply (filter_key_unique like_pair); [done..|].
    intros x [Hxu Hxp]. unfold like_pair in *. congruence.
Qed.

Section ToggleFacts.
Variables (u : Z) (slug_arg : string) (p : Product).

Abbreviation resolves s :=
  (get_object_or_404 (λ q, slug q = slug_arg ∧ is_active q = true)
     (products s) = inr p).

Abbreviation matching s :=
  (filter (λ l, like_user l = u ∧ like_product l = id p) (likes s)).

Lemma toggle_like_absent s :
  resolves s → matching s = [] →
  ∃ s',
    toggle_product_like u slug_arg s = (s', inr (toggle_answer true))
    ∧ products s' = products s
    ∧ likes s' = likes s ++ [mkProductLike (next_pk like_id (likes s)) u (id p)].
Proof.
  intros Hp Hm. eexists.
  unfold toggle_product_like, try_except, bind, query,
    ProductLike_get_or_create, objects_get.
  rewrite Hp. simpl. rewrite Hm. simpl. split; [reflexivity|]. done.
Qed.

Lemma toggle_like_present s l :
  resolves s → matching s = [l] →
  ∃ s',
    toggle_product_like u slug_arg s = (s', inr (toggle_answer false))
    ∧ products s' = products s
    ∧ likes s' = delete_row like_id l (likes s).
Proof.
  intros Hp Hm. eexists.
  unfold toggle_product_like, try_except, bind, query,
    ProductLike_get_or_create, objects_get.
  rewrite Hp. simpl. rewrite Hm. simpl. split; [reflexivity|]. done.
Qed.

(** After the one row of the pair is deleted the pair has no row left, and
    every other pair keeps its rows. *)
Lemma like_relation_delete rows l :
  pk_unique like_id rows → likes_unique rows → l ∈ rows →
  like_relation (delete_row like_id l rows)
  = like_relation rows ∖ {[like_pair l]}.
Proof.
  intros Hpk Hnd Hl. apply set_eq. intros x.
  rewrite elem_of_difference, !elem_of_like_relation, not_elem_of_singleton.
  unfold delete_row. split.
  - intros (y & Hy & Hx). apply list_elem_of_filter in Hy as [Hne Hy].
    split; [by exists y|]. intros ->. destruct Hne. f_equal.
    by apply (key_unique_inj like_pair rows).
  - intros [(y & Hy & Hx) Hne]. exists y. split; [|done].
    apply list_elem_of_filter. split; [|done]. intros Heq.
    assert (y = l) by (by apply (key_unique_inj like_id rows)). by subst.
Qed.
End ToggleFacts.

(** The toggle keeps the like table well formed, whatever it answers. *)
Lemma toggle_keeps_likes_unique (u : Z) (slug_arg : string) (s : Store) :
  pk_unique like_id (likes s) → likes_unique (likes s) →
  ∃ s' response,
    toggle_product_like u slug_arg s = (s', inr response)
    ∧ pk_unique like_id (likes s') ∧ likes_unique (likes s').
Proof.
  intros Hpk Hnd.
  destruct (get_object_or_404 (λ q, slug q = slug_arg ∧ is_active q = true)
              (products s)) as [exc|p] eqn:Hp.
  - exists s. eexists. split; [|done].
    unfold toggle_product_like, try_except, bind, query. by rewrite Hp.
  - destruct (likes_of_pair (likes s) u (id p) Hnd)
      as [[Hm Hnot] | (l & Hm & Hl & Hpair)].
    + destruct (toggle_like_absent u slug_arg p s Hp Hm)
        as (s' & Hrun & _ & Hls).
      exists s', (toggle_answer true). split; [done|]. rewrite Hls.
      split; [by apply pk_unique_snoc|].
      unfold likes_unique. rewrite fmap_app. simpl.
      apply NoDup_app. split; [done|]. split; [|apply NoDup_singleton].
      intros x Hx Hx'. apply list_elem_of_singleton in Hx'. subst x.
      apply Hnot. unfold like_relation. by apply elem_of_list_to_set.
    + destruct (toggle_like_present u slug_arg p s l Hp Hm)
        as (s' & Hrun & _ & Hls).
      exists s', (toggle_answer false). split; [done|]. rewrite Hls.
      split; by apply key_unique_filter.
Qed.

(** C10.  For an authenticated user and the active product the slug
    resolves to: when the pair has no like row the call answers liked=true
    and appends a row for the pair; otherwise it answers liked=false and
    deletes the row of the pair, after which the pair has no row.  A second
    call answers the opposite, and the like relation is then the one the
    first call started from. *)
Theorem toggle_product_like_twice (u : Z) (slug_arg : string) (p : Product)
    (s : Store) :
  get_object_or_404 (λ q, slug q = slug_arg ∧ is_active q = true)
    (products s) = inr p →
  pk_unique like_id (likes s) → likes_unique (likes s) →
  ∃ s1 s2 liked,
    toggle_product_like u slug_arg s = (s1, inr (toggle_answer liked))
    ∧ toggle_product_like u slug_arg s1
      = (s2, inr (toggle_answer (negb liked)))
    ∧ (if liked
       then (((u, id p) ∉ like_relation (likes s))
             ∧ (∃ l, likes s1 = likes s ++ [l] ∧ like_pair l = (u, id p)))
       else ∃ l, l ∈ likes s ∧ like_pair l = (u, id p)
                 ∧ likes s1 = delete_row like_id l (likes s)
                 ∧ (u, id p) ∉ like_relation (likes s1))
    ∧ like_relation (likes s2) = like_relation (likes s).
Proof.
  intros Hp Hpk Hnd.
  destruct (likes_of_pair (likes s) u (id p) Hnd)
    as [[Hm Hnot] | (l & Hm & Hl & Hpair)].
  - destruct (toggle_like_absent u slug_arg p s Hp Hm) as (s1 & H1 & Hps & Hls).
    set (new := mkProductLike (next_pk like_id (likes s)) u (id p)) in *.
    assert (filter (λ x, like_user x = u ∧ like_product x = id p) (likes s1)
            = [new]) as Hm1.
    { rewrite Hls, filter_app, Hm, filter_cons, filter_nil.
      by rewrite decide_True. }
    destruct (toggle_like_present u slug_arg p s1 new) as (s2 & H2 & _ & Hls2);
      [by rewrite Hps | done |].
    exists s1, s2, true. split; [done|]. split; [done|].
    split; [split; [done|by exists new]|].
    by rewrite Hls2, Hls, delete_row_snoc.
  - destruct (toggle_like_present u slug_arg p s l Hp Hm) as (s1 & H1 & Hps & Hls).
    assert (like_relation (likes s1) = like_relation (likes s) ∖ {[(u, id p)]})
      as Hrel by (by rewrite Hls, like_relation_delete, Hpair).
    assert ((u, id p) ∉ like_relation (likes s1)) as Hgone
      by (rewrite Hrel; set_solver).
    assert (likes_unique (likes s1)) as Hnd1
      by (rewrite Hls; by apply key_unique_filter).
    destruct (likes_of_pair (likes s1) u (id p) Hnd1)
      as [[Hm1 _] | (l' & _ & Hl' & Hpair')].
    2:{ destruct Hgone. apply elem_of_like_relation. by exists l'. }
    destruct (toggle_like_absent u slug_arg p s1) as (s2 & H2 & _ & Hls2);
      [by rewrite Hps | done |].
    exists s1, s2, false. split; [done|]. split; [done|].
    split; [by exists l|].
    rewrite Hls2, like_relation_snoc, Hrel. unfold like_pair at 1. simpl.
    assert ((u, id p) ∈ like_relation (likes s)) as Hwas
      by (apply elem_of_like_relation; by exists l).
    apply set_eq. intros x. rewrite elem_of_union, elem_of_difference,
      elem_of_singleton. destruct (decide (x = (u, id p))); naive_solver.
Qed.

Lemma toggle_product_like_twice_witness :
  ∃ s1 s2 liked,
    toggle_product_like 7 "lamp" sample_store
      = (s1, inr (toggle_answer liked))
    ∧ toggle_product_like 7 "lamp" s1 = (s2, inr (toggle_answer (negb liked)))
    ∧ (if liked
       then (((7, 1) ∉ like_relation (likes sample_store))
             ∧ (∃ l, likes s1 = likes sample_store ++ [l]
                     ∧ like_pair l = (7, 1)))
       else ∃ l, l ∈ likes sample_store ∧ like_pair l = (7, 1)
                 ∧ likes s1 = delete_row like_id l (likes sample_store)
                 ∧ (7, 1) ∉ like_relation (likes s1))
    ∧ like_relation (likes s2) = like_relation (likes sample_store).
Proof.
  apply (toggle_product_like_twice 7 "lamp" (mkProduct 1 "lamp" true)
           sample_store).
  - reflexivity.
  - unfold pk_unique. simpl. apply NoDup_singleton.
  - unfold likes_unique. simpl. apply NoDup_singleton.
Defined.

Example toggle_unknown_slug :
  toggle_product_like 7 "sofa" sample_store
  = (sample_store, inr (mkResponse (error_body "Failed to toggle like")
                                   HTTP_500_INTERNAL_SERVER_ERROR)).
Proof. reflexivity. Qed.

(** *** More on the like toggle *)

Lemma toggle_keeps_likes_unique_witness :
  ∃ s' response,
    toggle_product_like 8 "lamp" sample_store = (s', inr response)
    ∧ pk_unique like_id (likes s') ∧ likes_unique (likes s').
Proof.
  apply (toggle_keeps_likes_unique 8 "lamp" sample_store).
  - unfold pk_unique. simpl. apply NoDup_singleton.
  - unfold likes_unique. simpl. apply NoDup_singleton.
Defined.

(** A slug that no active product carries (unknown, or the product is
    inactive) is answered with the generic 500, and neither a like nor a
    behaviour log row is written. *)
Theorem toggle_unresolved_slug (u : Z) (slug_arg : string) (s : Store) :
  (∀ p, p ∈ products s → ¬ (slug p = slug_arg ∧ is_active p = true)) →
  toggle_product_like u slug_arg s
  = (s, inr (mkResponse (error_body "Failed to toggle like")
                        HTTP_500_INTERNAL_SERVER_ERROR)).
Proof.
  intros Hno.
  unfold toggle_product_like, try_except, bind, query, get_object_or_404.
  by rewrite objects_get_missing.
Qed.

Lemma toggle_unresolved_slug_witness :
  toggle_product_like 7 "desk" sample_store
  = (sample_store, inr (mkResponse (error_body "Failed to toggle like")
                                   HTTP_500_INTERNAL_SERVER_ERROR)).
Proof.
  apply (toggle_unresolved_slug 7 "desk" sample_store).
  intros p Hp [Hs Ha]. simpl in Hp.
  apply elem_of_cons in Hp as [->|Hp]; [done|].
  apply list_elem_of_singleton in Hp as ->. done.
Defined.

(** Every toggle that goes through appends exactly one behaviour log row
    for the user and the product, with action like when the call created
    the like and dislike when it removed it; the like is created exactly
    when the pair had none. *)
Theorem toggle_logs_the_action (u : Z) (slug_arg : string) (p : Product)
    (s : Store) :
  get_object_or_404 (λ q, slug q = slug_arg ∧ is_active q = true)
    (products s) = inr p →
  likes_unique (likes s) →
  ∃ s' liked,
    toggle_product_like u slug_arg s = (s', inr (toggle_answer liked))
    ∧ behavior_logs s'
      = behavior_logs s
        ++ [mkUserBehaviorLog (next_pk log_id (behavior_logs s)) u (id p)
              (if liked then "like" else "dislike")
              (PDict [("source", PStr "product_detail")])]
    ∧ (liked = true ↔ (u, id p) ∉ like_relation (likes s)).
Proof.
  intros Hp Hnd.
  destruct (likes_of_pair (likes s) u (id p) Hnd)
    as [[Hm Hnot] | (l & Hm & Hl & Hpair)].
  - exists (set_behavior_logs
              (λ rows, rows ++ [mkUserBehaviorLog
                                  (next_pk log_id (behavior_logs s)) u (id p)
                                  "like"
                                  (PDict [("source", PStr "product_detail")])])
              (set_likes (λ rows, rows ++ [mkProductLike
                                             (next_pk like_id (likes s)) u
                                             (id p)]) s)), true.
    split; [|split; [done|done]].
    unfold toggle_product_like, try_except, bind, query,
      ProductLike_get_or_create, objects_get.
    rewrite Hp. simpl. by rewrite Hm.
  - exists (set_behavior_logs
              (λ rows, rows ++ [mkUserBehaviorLog
                                  (next_pk log_id (behavior_logs s)) u (id p)
                                  "dislike"
                                  (PDict [("source", PStr "product_detail")])])
              (set_likes (delete_row like_id l) s)), false.
    split; [|split; [done|]].
    + unfold toggle_product_like, try_except, bind, query,
        ProductLike_get_or_create, objects_get.
      rewrite Hp. simpl. by rewrite Hm.
    + split; [done|]. intros Hnot. destruct Hnot.
      apply elem_of_like_relation. by exists l.
Qed.

Lemma toggle_logs_the_action_witness :
  ∃ s' liked,
    toggle_product_like 8 "lamp" sample_store
    = (s', inr (toggle_answer liked))
    ∧ behavior_logs s'
      = [] ++ [mkUserBehaviorLog 1 8 1 (if liked then "like" else "dislike")
                 (PDict [("source", PStr "product_detail")])]
    ∧ (liked = true ↔ (8, 1) ∉ like_relation (likes sample_store)).
Proof.
  apply (toggle_logs_the_action 8 "lamp" (mkProduct 1 "lamp" true)
           sample_store).
  - reflexivity.
  - unfold likes_unique. simpl. apply NoDup_singleton.
Defined.

End ProductsFacts.

(** ** comparisons/views.py *)

Module ComparisonsFacts.
Import Comparisons.

Lemma elem_of_active_ids rows i :
  i ∈ active_ids rows
  ↔ ∃ p, p ∈ rows ∧ Products.id p = i ∧ Products.is_active p = true.
Proof.
  unfold active_ids. rewrite list_elem_of_fmap. split.
  - intros (p & -> & Hp). apply list_elem_of_filter in Hp. naive_solver.
  - intros (p & Hp & <- & Ha). exists p. split; [done|].
    by apply list_elem_of_filter.
Qed.

Lemma elem_of_found_ids ids rows i :
  i ∈ (Products.id <$> active_products_in ids rows)
  ↔ i ∈ ids ∧ i ∈ active_ids rows.
Proof.
  rewrite elem_of_active_ids, list_elem_of_fmap. unfold active_products_in.
  split.
  - intros (p & -> & Hp). apply list_elem_of_filter in Hp. naive_solver.
  - intros (Hi & p & Hp & <- & Ha). exists p. split; [done|].
    by apply list_elem_of_filter.
Qed.

(** The count test of line 41, for a list without repeated ids. *)
Lemma count_matches ids rows :
  NoDup ids → pk_unique Products.id rows →
  length (active_products_in ids rows) = length ids
  ↔ ∀ i, i ∈ ids → i ∈ active_ids rows.
Proof.
  intros Hids Hpk.
  set (found := Products.id <$> active_products_in ids rows).
  assert (NoDup found) as Hfound by (by apply key_unique_filter).
  assert (length (active_products_in ids rows) = length found) as ->
    by (unfold found; by rewrite length_fmap).
  split.
  - intros Hlen i Hi.
    assert (found ≡ₚ ids) as Hperm.
    { apply submseteq_length_Permutation; [|lia].
      apply NoDup_submseteq; [done|].
      intros x Hx. by apply elem_of_found_ids in Hx as [? _]. }
    rewrite <- Hperm in Hi. by apply elem_of_found_ids in Hi as [_ ?].
  - intros Hall. apply Permutation_length, NoDup_Permutation; [done..|].
    intros x. unfold found. rewrite elem_of_found_ids. naive_solver.
Qed.

Lemma some_unavailable_iff ids rows :
  some_unavailable ids rows ↔ ¬ ∀ i, i ∈ ids → i ∈ active_ids rows.
Proof.
  unfold some_unavailable. split.
  - intros (i & Hi & Hno) Hall. by apply Hno, Hall.
  - intros Hnot.
    destruct (decide (Forall (λ i, i ∈ active_ids rows) ids)) as [Hall|Hex].
    + destruct Hnot. by apply Forall_forall.
    + apply not_Forall_Exists in Hex; [|apply _].
      apply Exists_exists in Hex as (i & Hi & Hno). by exists i.
Qed.

(** C3, as the view has it.  For a validated list without repeated ids:
    the answer is a 404 exactly when some submitted id refers to a product
    that is missing or inactive, and the store is then left alone.
    Otherwise, when the comparison service returns, exactly one comparison
    row is appended, its products are the submitted ids up to order, and
    the answer is a 201; when the service raises, nothing is stored and the
    answer is the catch-all 500. *)
Theorem compare_products_distinct_ids (env : Env) (v : ComparisonRequest)
    (s : Store) :
  is_valid env = inr v → NoDup (product_ids v) →
  pk_unique Products.id (catalog s) →
  ∃ s' response,
    compare_products env s = (s', inr response)
    ∧ (status response = HTTP_404_NOT_FOUND
       ↔ some_unavailable (product_ids v) (catalog s))
    ∧ (some_unavailable (product_ids v) (catalog s) → s' = s)
    ∧ (¬ some_unavailable (product_ids v) (catalog s) →
       match compare_products_service env with
       | inl _ =>
           s' = s ∧ status response = HTTP_500_INTERNAL_SERVER_ERROR
       | inr result =>
           ∃ c, comparisons s' = comparisons s ++ [c]
                ∧ catalog s' = catalog s
                ∧ products c ≡ₚ product_ids v
                ∧ comparison_criteria c = result_criteria result
                ∧ ai_analysis c = result_analysis result
                ∧ status response = HTTP_201_CREATED
       end).
Proof.
  intros Hv Hids Hpk.
  pose proof (count_matches (product_ids v) (catalog s) Hids Hpk) as Hcount.
  pose proof (some_unavailable_iff (product_ids v) (catalog s)) as Hsome.
  unfold compare_products, try_except, bind, query. rewrite Hv. simpl.
  case_decide as Hlen.
  - eexists _, _. split; [reflexivity|]. simpl.
    assert (some_unavailable (product_ids v) (catalog s)) as Hun
      by (apply Hsome; intros Hall; by apply Hlen, Hcount).
    split; [done|]. split; [done|]. by intros [].
  - assert (¬ some_unavailable (product_ids v) (catalog s)) as Hav
      by (rewrite Hsome; intros Hnot; by apply Hnot, Hcount).
    unfold lift, ProductComparison_create, products_set, ret.
    destruct (compare_products_service env) as [e|result]; simpl.
    + eexists _, _. split; [reflexivity|]. simpl.
      split; [split; [done|by intros ?]|]. split; [by intros ?|done].
    + unfold set_comparisons. cbn [comparisons catalog].
      rewrite update_pk_snoc by (apply next_pk_fresh || done).
      eexists _, _. split; [reflexivity|]. simpl.
      split; [split; [done|by intros ?]|]. split; [by intros ?|].
      intros _. eexists. split; [reflexivity|]. simpl.
      split; [done|]. split; [|done].
      apply submseteq_length_Permutation; [|rewrite length_fmap; lia].
      apply NoDup_submseteq; [by apply key_unique_filter|].
      intros x Hx. by apply elem_of_found_ids in Hx as [? _].
Qed.

Lemma compare_products_distinct_ids_witness :
  ∃ s' response,
    compare_products
      (mkEnv None (sample_request [2; 1]) (inr sample_result))
      (mkStore sample_catalog []) = (s', inr response)
    ∧ (status response = HTTP_404_NOT_FOUND
       ↔ some_unavailable [2; 1] sample_catalog)
    ∧ (some_unavailable [2; 1] sample_catalog
       → s' = mkStore sample_catalog [])
    ∧ (¬ some_unavailable [2; 1] sample_catalog →
       ∃ c, comparisons s' = [] ++ [c]
            ∧ catalog s' = sample_catalog
            ∧ products c ≡ₚ [2; 1]
            ∧ comparison_criteria c = PList [PStr "price"]
            ∧ ai_analysis c = PStr "the desk is cheaper"
            ∧ status response = HTTP_201_CREATED).
Proof.
  apply (compare_products_distinct_ids
           (mkEnv None (sample_request [2; 1]) (inr sample_result))
           (mkComparisonRequest [2; 1] None None)
           (mkStore sample_catalog [])).
  - reflexivity.
  - simpl. repeat constructor; set_solver.
  - unfold pk_unique. simpl. repeat constructor; set_solver.
Defined.

Lemma all_available_sample ids :
  (∀ i, i ∈ ids → i = 1 ∨ i = 2) → ¬ some_unavailable ids sample_catalog.
Proof.
  intros Hids (i & Hi & Hno). destruct Hno.
  apply elem_of_active_ids. destruct (Hids i Hi) as [-> | ->].
  - exists (Products.mkProduct 1 "lamp" true). split; [|done].
    apply list_elem_of_here.
  - exists (Products.mkProduct 2 "desk" true). split; [|done].
    apply list_elem_of_further, list_elem_of_here.
Qed.

(** C3 as stated fails in two ways.  With every submitted product present
    and active, a comparison service that raises leaves the answer at 500
    and no comparison row is created; and a list that names the same active
    product twice is answered with a 404, because one stored row is counted
    against two submitted ids. *)
Lemma compare_products_counterexample :
  (¬ some_unavailable [1; 2] sample_catalog
   ∧ compare_products
       (mkEnv None (sample_request [1; 2]) (inl (ServiceError "timeout")))
       (mkStore sample_catalog [])
     = (mkStore sample_catalog [],
        inr (mkResponse (error_body "Failed to compare products")
                        HTTP_500_INTERNAL_SERVER_ERROR)))
  ∧ (¬ some_unavailable [1; 1] sample_catalog
     ∧ compare_products
         (mkEnv None (sample_request [1; 1]) (inr sample_result))
         (mkStore sample_catalog [])
       = (mkStore sample_catalog [],
          inr (mkResponse
                 (error_body "One or more products not found or inactive")
                 HTTP_404_NOT_FOUND))).
Proof.
  split; (split; [apply all_available_sample; set_solver|reflexivity]).
Qed.

End ComparisonsFacts.

(** ** recommendations/views.py *)

Module RecommendationsFacts.
Import Recommendations.

(** C5.  A validated feedback call whose (session id, product id) pair has
    no result row is answered with a 404, and the store it leaves is the
    store it found. *)
Theorem track_unknown_pair (clock : Z) (v : Feedback) (s : Store) :
  (∀ r, r ∈ results s →
        ¬ (result_session_id r = fb_session_id v
           ∧ product_id r = fb_product_id v)) →
  track_recommendation_interaction (mkTrackEnv clock (inr v)) s
  = (s, inr not_found).
Proof.
  intros Hno.
  unfold track_recommendation_interaction, find_result, try_except, bind,
    query. simpl.
  by rewrite objects_get_missing.
Qed.

Lemma track_unknown_pair_witness :
  track_recommendation_interaction
    (mkTrackEnv 50 (inr (mkFeedback 1 6 "click" None))) sample_store
  = (sample_store, inr not_found).
Proof.
  apply (track_unknown_pair 50 (mkFeedback 1 6 "click" None) sample_store).
  intros r Hr [_ Hp]. apply list_elem_of_singleton in Hr. by subst r.
Defined.

(** C4.  For a validated feedback call whose pair has a result row [r]
    (the one row of the pair, in a table with unique keys): the call
    answers success and the stored row of the pair becomes [r'].  The key,
    session, product, score, position and algorithm of [r'] are those of
    [r].  On click, was_clicked is true and the click timestamp is the
    submitted one, or the clock when none was submitted, and the other two
    flags are as they were; on add_to_cart, was_added_to_cart is true and
    the rest is as it was; on purchase, was_purchased is true and the rest
    is as it was; any other action leaves the row as it was. *)
Theorem track_sets_flags (clock : Z) (v : Feedback) (s : Store)
    (r : RecommendationResult) :
  pk_unique result_id (results s) → pairs_unique (results s) →
  r ∈ results s →
  result_session_id r = fb_session_id v → product_id r = fb_product_id v →
  ∃ r',
    track_recommendation_interaction (mkTrackEnv clock (inr v)) s
    = (set_results (save result_id r') s, inr success)
    ∧ objects_get (λ x, result_session_id x = fb_session_id v
                        ∧ product_id x = fb_product_id v)
        (save result_id r' (results s)) = inr r'
    ∧ (result_id r' = result_id r
       ∧ result_session_id r' = result_session_id r
       ∧ product_id r' = product_id r ∧ score r' = score r
       ∧ position r' = position r ∧ algorithm_used r' = algorithm_used r)
    ∧ (fb_action v = "click" →
       was_clicked r' = true
       ∧ click_timestamp r'
         = Some match fb_timestamp v with
                | Some timestamp => timestamp
                | None => clock
                end
       ∧ was_added_to_cart r' = was_added_to_cart r
       ∧ was_purchased r' = was_purchased r)
    ∧ (fb_action v = "add_to_cart" →
       was_added_to_cart r' = true
       ∧ was_clicked r' = was_clicked r
       ∧ click_timestamp r' = click_timestamp r
       ∧ was_purchased r' = was_purchased r)
    ∧ (fb_action v = "purchase" →
       was_purchased r' = true
       ∧ was_clicked r' = was_clicked r
       ∧ click_timestamp r' = click_timestamp r
       ∧ was_added_to_cart r' = was_added_to_cart r)
    ∧ (unrecognized (fb_action v) → r' = r).
Proof.
  intros Hpk Hnd Hin Hs Hp.
  set (P := λ x, result_session_id x = fb_session_id v
                 ∧ product_id x = fb_product_id v).
  assert (filter P (results s) = [r]) as Hf.
  { apply (filter_key_unique result_pair); [done..|].
    intros x [Hxs Hxp]. unfold result_pair. congruence. }
  set (r' := if decide (fb_action v = "click")
             then set_clicked (default clock (fb_timestamp v)) r
             else if decide (fb_action v = "add_to_cart")
                  then set_added_to_cart r
             else if decide (fb_action v = "purchase") then set_purchased r
             else r).
  assert (result_id r' = result_id r ∧ P r') as [Hid HP'].
  { unfold r', P. repeat case_decide; simpl; done. }
  exists r'. split; [|split; [|split]].
  - unfold track_recommendation_interaction, find_result, try_except, bind,
      query, objects_get. simpl. fold P. by rewrite Hf.
  - unfold objects_get. fold P.
    rewrite (filter_key_unique result_pair P _ r'); [done| | |done|].
    + unfold pairs_unique in Hnd.
      rewrite (save_keys result_id result_pair r r'); [done..|].
      unfold result_pair. destruct HP'. congruence.
    + by apply (elem_of_save result_id r).
    + intros x [Hxs Hxp]. destruct HP'. unfold result_pair. congruence.
  - unfold r'. repeat case_decide; done.
  - unfold r', unrecognized.
    split; [|split; [|split]]; intros Ha; repeat case_decide;
      try congruence; try (destruct Ha as (? & ? & ?); done).
    + simpl. by destruct (fb_timestamp v).
    + done.
    + done.
Qed.

Lemma track_sets_flags_witness :
  ∃ r',
    track_recommendation_interaction
      (mkTrackEnv 50 (inr (mkFeedback 1 5 "click" (Some 77)))) sample_store
    = (set_results (save result_id r') sample_store, inr success)
    ∧ objects_get (λ x, result_session_id x = 1 ∧ product_id x = 5)
        (save result_id r' (results sample_store)) = inr r'
    ∧ (result_id r' = 1 ∧ result_session_id r' = 1 ∧ product_id r' = 5
       ∧ score r' = PInt 9 ∧ position r' = 1
       ∧ algorithm_used r' = "trending")
    ∧ ("click" = "click" →
       was_clicked r' = true ∧ click_timestamp r' = Some 77
       ∧ was_added_to_cart r' = false ∧ was_purchased r' = false)
    ∧ ("click" = "add_to_cart" →
       was_added_to_cart r' = true ∧ was_clicked r' = false
       ∧ click_timestamp r' = None ∧ was_purchased r' = false)
    ∧ ("click" = "purchase" →
       was_purchased r' = true ∧ was_clicked r' = false
       ∧ click_timestamp r' = None ∧ was_added_to_cart r' = false)
    ∧ (unrecognized "click" → r' = sample_result).
Proof.
  apply (track_sets_flags 50 (mkFeedback 1 5 "click" (Some 77)) sample_store
           sample_result).
  - unfold pk_unique. simpl. apply NoDup_singleton.
  - unfold pairs_unique. simpl. apply NoDup_singleton.
  - simpl. apply list_elem_of_here.
  - reflexivity.
  - reflexivity.
Defined.

Example track_unrecognized_action :
  track_recommendation_interaction
    (mkTrackEnv 50 (inr (mkFeedback 1 5 "share" None))) sample_store
  = (sample_store, inr success).
Proof. reflexivity. Qed.

(** *** The cache *)

Section CacheFacts.
Variable unique_together : bool.

Abbreviation view := (recommendations_view unique_together).

Lemma response_data_truthy e session recommendations :
  truthy (response_data e session recommendations) = true.
Proof. reflexivity. Qed.

(** A live, truthy entry under the key of the request is the answer, and
    the store is not written. *)
Lemma view_hit e env v s d expires :
  is_valid env = inr v →
  cache s !! cache_key e v = Some (d, expires) → now env < expires →
  truthy d = true →
  view e env s = (s, inr (mkResponse d HTTP_200_OK)).
Proof.
  intros Hv Hc Hlive Ht.
  unfold recommendations_view, try_except, bind, cache_get, cache_lookup.
  rewrite Hv, Hc, decide_True by done. by rewrite Ht.
Qed.

(** A miss that is answered with a 200 has stored its answer under the
    key, for the timeout of the endpoint. *)
Lemma view_miss_stores e env v s s1 d :
  is_valid env = inr v →
  truthy (cache_lookup (cache_key e v) (now env) (cache s)) = false →
  view e env s = (s1, inr (mkResponse d HTTP_200_OK)) →
  cache s1 !! cache_key e v = Some (d, now env + cache_timeout e)
  ∧ truthy d = true.
Proof.
  intros Hv Hmiss.
  unfold recommendations_view, try_except, bind, cache_get.
  rewrite Hv, Hmiss. unfold lift.
  destruct (get_recommendations env) as [exc|recommendations]; [done|].
  unfold RecommendationSession_create.
  destruct (store_results _ _ _ _ _ _) as [s2 [exc|[]]]; [done|].
  unfold cache_set, modify, ret. intros [= <- <-]. simpl.
  by rewrite lookup_insert_eq.
Qed.

(** C1.  Two validated recommendation requests, general or personalized,
    derive the same cache key.  The first misses the cache and is answered
    with a 200.  Then in every store that still holds the entry the first
    call left under the key, a second call before that entry expires is
    answered with the very data of the first answer (session_id included)
    and returns the store as it found it: no session row and no result row
    is created. *)
Theorem cached_response_replayed (e1 e2 : Endpoint) (env1 env2 : Env)
    (v1 v2 : RecommendationRequest) (s s1 : Store) (d : pyval) :
  is_valid env1 = inr v1 → is_valid env2 = inr v2 →
  cache_key e1 v1 = cache_key e2 v2 →
  truthy (cache_lookup (cache_key e1 v1) (now env1) (cache s)) = false →
  view e1 env1 s = (s1, inr (mkResponse d HTTP_200_OK)) →
  now env2 < now env1 + cache_timeout e1 →
  ∀ s2, cache s2 !! cache_key e2 v2 = cache s1 !! cache_key e1 v1 →
        view e2 env2 s2 = (s2, inr (mkResponse d HTTP_200_OK)).
Proof.
  intros Hv1 Hv2 Hkey Hmiss Hfirst Hlive s2 Hentry.
  destruct (view_miss_stores e1 env1 v1 s s1 d Hv1 Hmiss Hfirst) as [Hc Ht].
  rewrite Hc in Hentry. by eapply view_hit.
Qed.
End CacheFacts.

(** *** The result rows *)

Section ResultFacts.
Variable unique_together : bool.

(** The loop, whatever the tables hold: it writes result rows only, one
    after the other at the end of the table, row [i] for entry [i] of the
    list at position [idx + 1 + i]; it inserts a row for every entry when
    it ends normally, and for fewer than that when an insertion raises. *)
Lemma store_results_appends env session recommendations : ∀ idx s,
  ∃ s' outcome created,
    store_results unique_together env session idx recommendations s
      = (s', outcome)
    ∧ sessions s' = sessions s ∧ cache s' = cache s
    ∧ results s' = results s ++ created
    ∧ ranked_from (id session) idx recommendations created
    ∧ (outcome = inr () → length created = length recommendations)
    ∧ (∀ exc, outcome = inl exc →
              (length created < length recommendations)%nat).
Proof.
  induction recommendations as [|rec rest IH]; intros idx s.
  - exists s, (inr ()), []. rewrite app_nil_r. repeat split; done.
  - simpl. unfold bind at 1. unfold RecommendationResult_create.
    set (row := {| result_id := next_pk result_id (results s);
                   result_session_id := id session;
                   product_id := rec_product_id rec;
                   score := rec_score rec;
                   position := idx + 1;
                   algorithm_used := rec_algorithm rec;
                   was_clicked := false;
                   click_timestamp := None;
                   was_added_to_cart := false;
                   was_purchased := false |}).
    assert (∀ exc : exn,
      ∃ s' outcome created,
        (s, @inl exn () exc) = (s', outcome)
        ∧ sessions s' = sessions s ∧ cache s' = cache s
        ∧ results s' = results s ++ created
        ∧ ranked_from (id session) idx (rec :: rest) created
        ∧ (outcome = inr () → length created = length (rec :: rest))
        ∧ (∀ exc, outcome = inl exc →
                  (length created < length (rec :: rest))%nat)) as Hstop.
    { intros exc. exists s, (inl exc), []. rewrite app_nil_r.
      repeat split; try done. intros _ _. simpl. lia. }
    destruct (create_error env row) as [exc|]; [apply Hstop|].
    destruct (unique_together && _); [apply Hstop|].
    destruct (IH (idx + 1) (set_results (λ rows, rows ++ [row]) s))
      as (s' & outcome & created & Hrun & Hss & Hc & Hres & Hrank & Hlen
          & Hshort).
    exists s', outcome, (row :: created). rewrite Hrun.
    split; [done|]. split; [done|]. split; [done|].
    split; [rewrite Hres; simpl; by rewrite <- app_assoc|].
    split; [|split].
    + intros [|i] r Hi; simpl in Hi.
      * injection Hi as <-. simpl. split; [done|]. split; [lia|].
        by exists rec.
      * destruct (Hrank i r Hi) as (Hsid & Hpos & rec' & Hrec' & Hrest).
        split; [done|]. split; [lia|]. by exists rec'.
    + intros Hout. simpl. by rewrite Hlen.
    + intros exc Hout. simpl. apply Hshort in Hout. lia.
Qed.

(** The loop keeps keys and pairs unique, when the table rejects repeated
    pairs or the list brings none. *)
Lemma store_results_unique env session recommendations : ∀ idx s s' outcome,
  pk_unique result_id (results s) → pairs_unique (results s) →
  unique_together = true ∨ fresh_for session recommendations (results s) →
  store_results unique_together env session idx recommendations s
    = (s', outcome) →
  pk_unique result_id (results s') ∧ pairs_unique (results s').
Proof.
  induction recommendations as [|rec rest IH];
    intros idx s s' outcome Hpk Hnd Hok.
  - by intros [= <- _].
  - simpl. unfold bind at 1. unfold RecommendationResult_create.
    set (row := {| result_id := next_pk result_id (results s);
                   result_session_id := id session;
                   product_id := rec_product_id rec;
                   score := rec_score rec;
                   position := idx + 1;
                   algorithm_used := rec_algorithm rec;
                   was_clicked := false;
                   click_timestamp := None;
                   was_added_to_cart := false;
                   was_purchased := false |}).
    destruct (create_error env row) as [exc|]; [by intros [= <- _]|].
    destruct (unique_together
              && bool_decide (result_pair row ∈ (result_pair <$> results s)))
      eqn:Hchk; [by intros [= <- _]|].
    assert (result_pair row ∉ (result_pair <$> results s)) as Hnew.
    { destruct Hok as [Hu|[_ Hfresh]].
      - rewrite Hu in Hchk. simpl in Hchk.
        by apply bool_decide_eq_false in Hchk.
      - apply (Hfresh rec), list_elem_of_here. }
    set (s1 := set_results (λ rows, rows ++ [row]) s).
    apply (IH (idx + 1) s1).
    + by apply pk_unique_snoc.
    + unfold pairs_unique, s1. simpl. rewrite fmap_app. simpl.
      apply NoDup_app. split; [done|]. split; [|apply NoDup_singleton].
      intros x Hx Hx'. apply list_elem_of_singleton in Hx'. by subst x.
    + destruct Hok as [Hu|[Hids Hfresh]]; [by left|right].
      simpl in Hids. apply NoDup_cons in Hids as [Hrec Hids].
      split; [done|]. intros rec' Hrec'. unfold s1. simpl.
      rewrite fmap_app. simpl. intros Hin.
      apply elem_of_app in Hin as [Hin|Hin].
      * destruct (Hfresh rec'); [by apply list_elem_of_further|done].
      * apply list_elem_of_singleton in Hin. injection Hin as Hp.
        destruct Hrec. rewrite <- Hp. apply list_elem_of_fmap.
        by exists rec'.
Qed.

(** Consistency after a new session and its rows have been appended. *)
Lemma consistent_extended s s' session created :
  consistent s → id session = next_pk id (sessions s) →
  sessions s' = sessions s ++ [session] →
  results s' = results s ++ created →
  pk_unique result_id (results s') → pairs_unique (results s') →
  (∀ row, row ∈ created → result_session_id row = id session) →
  consistent s'.
Proof.
  intros (Hsk & _ & _ & Hknown) Hid Hss Hres Hpk Hnd Hnew.
  split; [rewrite Hss; by apply pk_unique_snoc|].
  split; [done|]. split; [done|].
  intros sid Hsid. rewrite Hres, fmap_app in Hsid.
  rewrite Hss, fmap_app. apply elem_of_app.
  apply elem_of_app in Hsid as [Hsid|Hsid].
  - left. by apply Hknown.
  - right. apply list_elem_of_fmap in Hsid as (row & -> & Hrow).
    rewrite (Hnew row Hrow). simpl. apply list_elem_of_here.
Qed.

(** No result row of a consistent store belongs to the session that is
    created next. *)
Lemma next_session_fresh s session recommendations :
  consistent s → id session = next_pk id (sessions s) →
  NoDup (rec_product_id <$> recommendations) →
  fresh_for session recommendations (results s).
Proof.
  intros (_ & _ & _ & Hknown) Hid Hids. split; [done|].
  intros rec _ Hin. apply list_elem_of_fmap in Hin as (row & Hrow & Hin).
  injection Hrow as Hsid _.
  apply (next_pk_fresh id (sessions s)). rewrite <- Hid, Hsid.
  apply Hknown, list_elem_of_fmap. by exists row.
Qed.

(** A recommendation call on a consistent store.  It always answers, and
    leaves a consistent store; the result rows it appended are ranked as
    the service list is.  An answer of 200 to a request that missed the
    cache comes with one row per entry of the list the service returned; a
    request that hit the cache wrote nothing. *)
Lemma view_preserves e env s :
  consistent s → admissible unique_together env →
  ∃ s' response created,
    recommendations_view unique_together e env s = (s', inr response)
    ∧ consistent s'
    ∧ results s' = results s ++ created
    ∧ ranked_from (next_pk id (sessions s)) 0 (service_list env) created
    ∧ (∀ v, is_valid env = inr v →
            (truthy (cache_lookup (cache_key e v) (now env) (cache s))
             = true → s' = s)
            ∧ (truthy (cache_lookup (cache_key e v) (now env) (cache s))
               = false →
               status response = HTTP_200_OK →
               get_recommendations env = inr (service_list env)
               ∧ length created = length (service_list env))).
Proof.
  intros Hcons Hadm.
  unfold recommendations_view, try_except, bind, cache_get.
  destruct (is_valid env) as [errors|v] eqn:Hvalid.
  { eexists s, _, []. rewrite app_nil_r. split; [reflexivity|].
    split; [done|]. split; [done|]. split; [done|]. intros v' [=]. }
  destruct (truthy _) eqn:Hlookup.
  { eexists s, _, []. rewrite app_nil_r. split; [reflexivity|].
    split; [done|]. split; [done|]. split; [done|].
    intros v' [= <-]. split; [done|]. by rewrite Hlookup. }
  unfold lift, service_list in *.
  destruct (get_recommendations env) as [exc|recommendations] eqn:Hsvc.
  { eexists s, _, []. rewrite app_nil_r. split; [reflexivity|].
    split; [done|]. split; [done|]. split; [done|].
    intros v' [= <-]. split; [by rewrite Hlookup|]. intros _ [=]. }
  unfold RecommendationSession_create.
  set (session := {| id := next_pk id (sessions s);
                     user := session_user e;
                     session_id := request_session_id v;
                     recommendation_type := type_name e |}).
  set (s0 := set_sessions (λ rows, rows ++ [session]) s).
  destruct (store_results_appends env session recommendations 0 s0)
    as (s1 & outcome & created & Hrun & Hss & Hc & Hres & Hrank & Hlen & _).
  assert (pk_unique result_id (results s1) ∧ pairs_unique (results s1))
    as [Hpk' Hnd'].
  { apply (store_results_unique env session recommendations 0 s0 s1 outcome);
      [apply Hcons..| |done].
    destruct Hadm as [Hu|Hids]; [by left|right].
    apply (next_session_fresh s); [done..|by apply Hids]. }
  rewrite Hrun.
  assert (∀ row, row ∈ created → result_session_id row = id session) as Hnew.
  { intros row Hrow. apply list_elem_of_lookup_1 in Hrow as [i Hi].
    by destruct (Hrank i row Hi). }
  destruct outcome as [exc|[]].
  - eexists s1, _, created. split; [reflexivity|].
    split; [by eapply (consistent_extended s s1 session created)|].
    split; [done|]. split; [done|].
    intros v' [= <-]. split; [by rewrite Hlookup|]. intros _ [=].
  - unfold cache_set, modify, ret.
    eexists _, _, created. split; [reflexivity|]. simpl.
    split; [by eapply (consistent_extended s _ session created)|].
    split; [done|]. split; [done|].
    intros v' [= <-]. split; [by rewrite Hlookup|]. intros _ _.
    split; [done|]. by apply Hlen.
Qed.

Lemma track_preserves env s :
  consistent s →
  ∃ s' response,
    track_recommendation_interaction env s = (s', inr response)
    ∧ consistent s'.
Proof.
  intros (Hsk & Hpk & Hnd & Hknown).
  unfold track_recommendation_interaction, find_result, try_except, bind,
    query.
  destruct (track_is_valid env) as [errors|v]; [by eexists _, _|].
  destruct (objects_get _ _) as [exc|r] eqn:Hget; simpl.
  - destruct exc; simpl; by eexists _, _.
  - apply objects_get_found in Hget as (Hin & [Hs Hp] & _).
    match goal with
    | |- context [save result_id ?x] => set (r' := x)
    end.
    assert (result_id r' = result_id r ∧ result_session_id r' = result_session_id r
            ∧ product_id r' = product_id r) as (Hid & Hsid & Hpid)
      by (unfold r'; repeat case_decide; done).
    eexists _, _. split; [reflexivity|]. unfold consistent, pairs_unique,
      sessions_known, pk_unique. simpl.
    rewrite (save_keys result_id result_id r r') by done.
    rewrite (save_keys result_id result_pair r r')
      by (try done; unfold result_pair; congruence).
    by rewrite (save_keys result_id result_session_id r r') by done.
Qed.
End ResultFacts.

Lemma consistent_empty : consistent empty_store.
Proof.
  split; [apply NoDup_nil_2|]. split; [apply NoDup_nil_2|].
  split; [apply NoDup_nil_2|].
  intros sid Hsid. by apply elem_of_nil in Hsid.
Qed.

(** Every store the views lead to is consistent: the keys of sessions and
    of result rows are unique, no (session, product) pair has two result
    rows, and the session of every result row is stored. *)
Lemma reachable_consistent unique_together s :
  reachable unique_together s → consistent s.
Proof.
  induction 1 as [|s e env _ IH Hadm|s env _ IH].
  - apply consistent_empty.
  - destruct (view_preserves unique_together e env s IH Hadm)
      as (s' & response & created & Hrun & Hs' & _).
    by rewrite Hrun.
  - destruct (track_preserves env s IH) as (s' & response & Hrun & Hs').
    by rewrite Hrun.
Qed.

(** C8.  The tables are consistent (unique keys, at most one result row
    per (session, product) pair, every result row in a stored session),
    and the table rejects the second row of a pair, as the data model of
    the spec has it.  Then, for every list the service returns and
    whatever else the request meets, a recommendation call on either
    endpoint answers and leaves at most one result row per pair.  The rows
    it appended belong to the new session, row i (from 0) holding entry i
    of the service list at position i + 1; an answer of 200 to a request
    that missed the cache comes with exactly one such row per entry of the
    list, and a request that hit the cache wrote nothing.  A feedback call
    leaves at most one result row per pair as well. *)
Theorem results_unique_and_ranked (e : Endpoint) (env : Env)
    (tenv : TrackEnv) (s : Store) :
  consistent s →
  (∃ s' response created,
     recommendations_view result_unique_together e env s
     = (s', inr response)
     ∧ pairs_unique (results s') ∧ consistent s'
     ∧ results s' = results s ++ created
     ∧ ranked_from (next_pk id (sessions s)) 0 (service_list env) created
     ∧ (∀ v, is_valid env = inr v →
             (truthy (cache_lookup (cache_key e v) (now env) (cache s))
              = true → s' = s)
             ∧ (truthy (cache_lookup (cache_key e v) (now env) (cache s))
                = false →
                status response = HTTP_200_OK →
                get_recommendations env = inr (service_list env)
                ∧ length created = length (service_list env))))
  ∧ (∃ s' response,
       track_recommendation_interaction tenv s = (s', inr response)
       ∧ pairs_unique (results s') ∧ consistent s').
Proof.
  intros Hs. split.
  - destruct (view_preserves result_unique_together e env s Hs)
      as (s' & response & created & Hrun & Hs' & Hrest); [by left|].
    exists s', response, created. split; [done|]. split; [apply Hs'|done].
  - destruct (track_preserves tenv s Hs) as (s' & response & Hrun & Hs').
    exists s', response. split; [done|]. split; [apply Hs'|done].
Qed.

Lemma sample_store_consistent : consistent sample_store.
Proof.
  unfold consistent, pk_unique, pairs_unique, sessions_known. simpl.
  split; [apply NoDup_singleton|]. split; [apply NoDup_singleton|].
  split; [apply NoDup_singleton|]. done.
Qed.

Lemma results_unique_and_ranked_witness :
  (∃ s' response created,
     recommendations_view result_unique_together (General None) first_env
       sample_store
     = (s', inr response)
     ∧ pairs_unique (results s') ∧ consistent s'
     ∧ results s' = results sample_store ++ created
     ∧ ranked_from (next_pk id (sessions sample_store)) 0
         (service_list first_env) created
     ∧ (∀ v, is_valid first_env = inr v →
             (truthy (cache_lookup (cache_key (General None) v)
                        (now first_env) (cache sample_store))
              = true → s' = sample_store)
             ∧ (truthy (cache_lookup (cache_key (General None) v)
                          (now first_env) (cache sample_store))
                = false →
                status response = HTTP_200_OK →
                get_recommendations first_env
                = inr (service_list first_env)
                ∧ length created = length (service_list first_env))))
  ∧ (∃ s' response,
       track_recommendation_interaction
         (mkTrackEnv 50 (inr (mkFeedback 1 5 "click" None))) sample_store
         = (s', inr response)
       ∧ pairs_unique (results s') ∧ consistent s').
Proof.
  apply (results_unique_and_ranked (General None) first_env
           (mkTrackEnv 50 (inr (mkFeedback 1 5 "click" None))) sample_store).
  apply sample_store_consistent.
Defined.

(** A call on the store with one session and one row, for a list of two
    products: two rows for the new session 2, at positions 1 and 2 in the
    order of the list. *)
Example results_ranked_sample :
  ∃ s' response,
    general_recommendations result_unique_together None first_env
      sample_store = (s', inr response)
    ∧ status response = HTTP_200_OK
    ∧ (result_pair <$> results s') = [(1, 5); (2, 5); (2, 6)]
    ∧ (position <$> results s') = [1; 1; 2].
Proof. eexists _, _. split; [reflexivity|]. by repeat split. Qed.

(** A list that names product 5 twice: the second insertion raises, the
    call is answered with a 500, and the session row and the first result
    row stay. *)
Example repeated_product_rejected :
  ∃ s', general_recommendations result_unique_together None repeating_env
          empty_store
        = (s', inr (mkResponse
                      (error_body "Failed to generate recommendations")
                      HTTP_500_INTERNAL_SERVER_ERROR))
        ∧ (result_pair <$> results s') = [(1, 5)]
        ∧ (id <$> sessions s') = [1].
Proof. eexists. split; [reflexivity|]. by split. Qed.

Lemma cached_response_replayed_witness :
  recommendations_view false (General (Some 4)) second_env first_store
  = (first_store, inr (mkResponse first_data HTTP_200_OK)).
Proof.
  apply (cached_response_replayed false (General None) (General (Some 4))
           first_env second_env (sample_request None)
           (sample_request (Some 3)) empty_store first_store first_data);
    reflexivity || (unfold first_env, second_env; simpl; lia).
Defined.

(** *** More on the cache *)

(** Cache keys keep users apart: two personalized keys are equal only for
    the same user and the same limit, a general key is never a
    personalized key, and two general keys are equal exactly when the
    limits are (an absent limit counting as 10). *)
Theorem cache_keys_separate_users (u1 u2 : Z)
    (v1 v2 : RecommendationRequest) :
  (cache_key (Personalized u1) v1 = cache_key (Personalized u2) v2 →
   u1 = u2 ∧ default 10 (limit v1) = default 10 (limit v2))
  ∧ (∀ a, cache_key (General a) v1 ≠ cache_key (Personalized u2) v2)
  ∧ (∀ a b, cache_key (General a) v1 = cache_key (General b) v2
            ↔ default 10 (limit v1) = default 10 (limit v2)).
Proof.
  assert (∀ z : Z, string_forall (λ x, x ≠ "_"%char) (pretty z)) as Hchars.
  { intros z. apply pretty_Z_chars; [|done].
    intros d. unfold pretty_N_char. by repeat case_match. }
  split; [|split].
  - unfold cache_key. intros Heq. simplify_eq/=.
    match goal with
    | H : _ +:+ _ = _ +:+ _ |- _ =>
        apply split_at_separator in H as [Hu Hl]; [|apply Hchars..]
    end.
    split; by apply (inj pretty).
  - intros a Heq. unfold cache_key in Heq. simplify_eq/=.
  - intros a b. unfold cache_key. split.
    + intros Heq. simpl in Heq. injection Heq as Heq.
      by apply (inj pretty).
    + by intros ->.
Qed.

(** An entry is dead from the instant it expires at: a call at or after
    that instant that is answered with a 200 has got a list from the
    service, inserted a new session for the caller and one result row per
    entry of the list, answered with the key of that session, the list,
    its length and the description of the endpoint, and replaced the entry
    by its own answer, which expires 900 seconds later for general and 300
    seconds later for personalized recommendations. *)
Theorem expired_entry_is_recomputed (unique_together : bool) (e : Endpoint)
    (env : Env) (v : RecommendationRequest) (s s' : Store)
    (stale : pyval) (expires : Z) (response : Response) :
  is_valid env = inr v →
  cache s !! cache_key e v = Some (stale, expires) → expires ≤ now env →
  recommendations_view unique_together e env s = (s', inr response) →
  status response = HTTP_200_OK →
  ∃ recommendations,
    get_recommendations env = inr recommendations
    ∧ sessions s'
      = sessions s
        ++ [{| id := next_pk id (sessions s);
               user := match e with
                       | General request_user => request_user
                       | Personalized uid => Some uid
                       end;
               session_id := request_session_id v;
               recommendation_type :=
                 match e with
                 | General _ => "general"
                 | Personalized _ => "personalized"
                 end |}]
    ∧ length (results s')
      = (length (results s) + length recommendations)%nat
    ∧ data response
      = PDict
          [("session_id", PInt (next_pk id (sessions s)));
           ("recommendations",
            PList ((λ rec, PDict [("product_id", PInt (rec_product_id rec));
                                  ("score", rec_score rec);
                                  ("algorithm", PStr (rec_algorithm rec))])
                     <$> recommendations));
           ("total_count", PInt (Z.of_nat (length recommendations)));
           ("algorithm_info",
            PDict [("type",
                    PStr match e with
                         | General _ => "general"
                         | Personalized _ => "personalized"
                         end);
                   ("description",
                    PStr match e with
                         | General _ => "Trending and popular products"
                         | Personalized _ =>
                             "Based on your preferences and behavior"
                         end)])]
    ∧ cache s' !! cache_key e v
      = Some (data response,
              now env + match e with
                        | General _ => 900
                        | Personalized _ => 300
                        end).
Proof.
  intros Hv Hc Hdead.
  unfold recommendations_view, try_except, bind, cache_get, cache_lookup.
  rewrite Hv, Hc, decide_False by lia. simpl. unfold lift.
  destruct (get_recommendations env) as [exc|recommendations].
  { intros [= _ <-] Hst. done. }
  unfold RecommendationSession_create.
  match goal with
  | |- context [store_results _ _ ?session 0 _ ?s0] =>
      destruct (store_results_appends unique_together env session
                  recommendations 0 s0)
        as (s1 & outcome & created & -> & Hss & _ & Hres & _ & Hlen & _)
  end.
  destruct outcome as [exc|[]].
  { intros [= _ <-] Hst. done. }
  unfold cache_set, modify, ret. intros [= <- <-] _.
  exists recommendations. simpl.
  rewrite lookup_insert_eq, Hss, Hres, length_app, Hlen by done. simpl.
  split; [done|]. split; [by destruct e|]. split; [done|].
  split; by destruct e.
Qed.

Lemma expired_entry_is_recomputed_witness :
  ∃ recommendations,
    get_recommendations third_env = inr recommendations
    ∧ sessions (fst (general_recommendations false None third_env
                       first_store))
      = sessions first_store
        ++ [mkRecommendationSession (next_pk id (sessions first_store))
              None (Some "abc") "general"]
    ∧ length (results (fst (general_recommendations false None third_env
                              first_store)))
      = (length (results first_store) + length recommendations)%nat
    ∧ response_data (General None)
        (mkRecommendationSession 2 None (Some "abc") "general")
        sample_recommendations
      = PDict
          [("session_id", PInt (next_pk id (sessions first_store)));
           ("recommendations",
            PList ((λ rec, PDict [("product_id", PInt (rec_product_id rec));
                                  ("score", rec_score rec);
                                  ("algorithm", PStr (rec_algorithm rec))])
                     <$> recommendations));
           ("total_count", PInt (Z.of_nat (length recommendations)));
           ("algorithm_info",
            PDict [("type", PStr "general");
                   ("description", PStr "Trending and popular products")])]
    ∧ cache (fst (general_recommendations false None third_env first_store))
        !! cache_key (General None) (sample_request None)
      = Some (response_data (General None)
                (mkRecommendationSession 2 None (Some "abc") "general")
                sample_recommendations,
              1900 + 900).
Proof.
  apply (expired_entry_is_recomputed false (General None) third_env
           (sample_request None) first_store
           (fst (general_recommendations false None third_env first_store))
           first_data 1900
           (mkResponse
              (response_data (General None)
                 (mkRecommendationSession 2 None (Some "abc") "general")
                 sample_recommendations)
              HTTP_200_OK));
    reflexivity || (simpl; lia).
Defined.

(** *** What a failed call leaves behind *)



(** The call of the witness: product 6 is rejected, so the new session 2
    and its row for product 5 stay, with no row for product 6. *)
Example rejected_row_leaves_session :
  (id <$> sessions (fst (general_recommendations false None rejecting_env
                           sample_store))) = [1; 2]
  ∧ (result_pair
       <$> results (fst (general_recommendations false None rejecting_env
                           sample_store))) = [(1, 5); (2, 5)].
Proof. by split. Qed.

(** *** What feedback never does *)

(** A feedback call, whatever it carries and whatever it is answered,
    neither adds nor removes a result row, leaves sessions and cache alone,
    keeps the key, pair, position, score and algorithm of every row, and
    never clears a flag or a click timestamp that was set. *)
Theorem track_only_sets_flags (env : TrackEnv) (s : Store) :
  pk_unique result_id (results s) →
  ∃ s' response,
    track_recommendation_interaction env s = (s', inr response)
    ∧ sessions s' = sessions s ∧ cache s' = cache s
    ∧ result_id <$> results s' = result_id <$> results s
    ∧ result_pair <$> results s' = result_pair <$> results s
    ∧ position <$> results s' = position <$> results s
    ∧ score <$> results s' = score <$> results s
    ∧ algorithm_used <$> results s' = algorithm_used <$> results s
    ∧ Forall2 (λ x x', (was_clicked x = true → was_clicked x' = true)
                       ∧ (was_added_to_cart x = true
                          → was_added_to_cart x' = true)
                       ∧ (was_purchased x = true → was_purchased x' = true)
                       ∧ (is_Some (click_timestamp x)
                          → is_Some (click_timestamp x')))
        (results s) (results s').
Proof.
  intros Hpk.
  assert (Forall2 (λ x x', (was_clicked x = true → was_clicked x' = true)
                       ∧ (was_added_to_cart x = true
                          → was_added_to_cart x' = true)
                       ∧ (was_purchased x = true → was_purchased x' = true)
                       ∧ (is_Some (click_timestamp x)
                          → is_Some (click_timestamp x')))
            (results s) (results s)) as Hsame.
  { apply Forall_Forall2_diag, Forall_forall. done. }
  unfold track_recommendation_interaction, find_result, try_except, bind,
    query.
  destruct (track_is_valid env) as [errors|v]; [by eexists _, _|].
  destruct (objects_get _ _) as [exc|r] eqn:Hget; simpl.
  - destruct exc; simpl; by eexists _, _.
  - apply objects_get_found in Hget as (Hin & _ & _).
    match goal with
    | |- context [save result_id ?x] => set (r' := x)
    end.
    assert (result_id r' = result_id r ∧ result_pair r' = result_pair r
            ∧ position r' = position r ∧ score r' = score r
            ∧ algorithm_used r' = algorithm_used r
            ∧ (was_clicked r = true → was_clicked r' = true)
            ∧ (was_added_to_cart r = true → was_added_to_cart r' = true)
            ∧ (was_purchased r = true → was_purchased r' = true)
            ∧ (is_Some (click_timestamp r) → is_Some (click_timestamp r')))
      as (Hid & Hpair & Hpos & Hsc & Halg & Hflags)
      by (unfold r'; repeat case_decide; simpl; eauto 10).
    eexists _, _. split; [reflexivity|]. simpl.
    split; [done|]. split; [done|].
    rewrite !(save_keys result_id _ r r') by done.
    repeat (split; [done|]).
    unfold save, update_pk. apply Forall2_fmap_r, Forall_Forall2_diag,
      Forall_forall.
    intros x Hx. unfold compose. cbn beta. case_decide as Heq; [|done].
    assert (x = r) as -> by (apply (key_unique_inj result_id (results s));
                             [done..|congruence]).
    done.
Qed.

Lemma track_only_sets_flags_witness :
  ∃ s' response,
    track_recommendation_interaction
      (mkTrackEnv 50 (inr (mkFeedback 1 5 "purchase" None))) sample_store
    = (s', inr response)
    ∧ sessions s' = sessions sample_store ∧ cache s' = cache sample_store
    ∧ result_id <$> results s' = [1]
    ∧ result_pair <$> results s' = [(1, 5)]
    ∧ position <$> results s' = [1]
    ∧ score <$> results s' = [PInt 9]
    ∧ algorithm_used <$> results s' = ["trending"]
    ∧ Forall2 (λ x x', (was_clicked x = true → was_clicked x' = true)
                       ∧ (was_added_to_cart x = true
                          → was_added_to_cart x' = true)
                       ∧ (was_purchased x = true → was_purchased x' = true)
                       ∧ (is_Some (click_timestamp x)
                          → is_Some (click_timestamp x')))
        [sample_result] (results s').
Proof.
  apply (track_only_sets_flags
           (mkTrackEnv 50 (inr (mkFeedback 1 5 "purchase" None)))
           sample_store).
  unfold pk_unique. simpl. apply NoDup_singleton.
Defined.

(** *** Stores the views lead to *)

Lemma reachable_consistent_witness : consistent first_store.
Proof.
  apply (reachable_consistent false first_store).
  apply (reachable_recommend false empty_store (General None) first_env).
  - apply reachable_empty.
  - right. intros recommendations [= <-]. simpl.
    repeat constructor; set_solver.
Defined.

End RecommendationsFacts.

(** ** Validation failures across the views *)

Module ErrorTaxonomy.

(** The views that test [serializer.is_valid()] themselves answer a body
    that fails validation with a 400 carrying the field errors, and leave
    the store alone. *)
Lemma tested_validation_answers_400 (errors : pyval) :
  (∀ unique_together e clock service database s,
     Recommendations.recommendations_view unique_together e
       (Recommendations.mkEnv clock (inl errors) service database) s
     = (s, inr (mkResponse errors HTTP_400_BAD_REQUEST)))
  ∧ (∀ clock s,
       Recommendations.track_recommendation_interaction
         (Recommendations.mkTrackEnv clock (inl errors)) s
       = (s, inr (mkResponse errors HTTP_400_BAD_REQUEST)))
  ∧ (∀ u service s,
       Comparisons.compare_products
         (Comparisons.mkEnv u (inl errors) service) s
       = (s, inr (mkResponse errors HTTP_400_BAD_REQUEST))).
Proof. repeat split. Qed.

(** C9, where the code departs from it.  [GenerateReportView.create]
    validates with [is_valid(raise_exception=True)] inside its own
    [try ... except Exception]: the [ValidationError] is caught by the
    view, and a body that fails validation is answered with the generic
    500 body, the field errors dropped; no row is written. *)
Theorem report_validation_failure_is_500 (u t : Z) (errors : pyval)
    (outcome : exn + Reports.ReportData) (s : Reports.Store) :
  Reports.create (Reports.mkCreateEnv u t (inl errors) outcome) s
  = (s, inr (mkResponse (error_body "Failed to generate report")
                        HTTP_500_INTERNAL_SERVER_ERROR)).
Proof.
  unfold Reports.create, try_except, bind. simpl.
  (* the body stops at the raised [ValidationError]; the handler answers *)
  unfold Reports.is_valid_raise_exception, raise, ret. reflexivity.
Qed.

(** The generic 500 body also answers lookups that find nothing when they
    go through [get_object_or_404] inside the catch-all. *)
Example missing_report_is_500 :
  Reports.download_report Reports.sample_str Reports.sample_display
    Reports.sample_strftime Reports.sample_writerow
    (Reports.mkDownloadEnv 7 100 None) 2
    (Reports.mkStore [Reports.sample_report] [])
  = (Reports.mkStore [Reports.sample_report] [],
     inr (Reports.DRFResponse
            (mkResponse (error_body "Failed to download report")
                        HTTP_500_INTERNAL_SERVER_ERROR))).
Proof. reflexivity. Qed.

End ErrorTaxonomy.

(** ** products/views.py: the catalog views *)

Module CatalogFacts.
Import Catalog.

(** The product detail view of the one active product with the slug: the
    stored view count of that row goes up by exactly one and no other
    product row changes; the answer serializes the row as it was read,
    before the increment; a behaviour log row with action view is written
    exactly when the request is authenticated. *)
Theorem retrieve_counts_one_view (ProductSerializer : Product → pyval)
    (request_user : option Z) (s : Db) (p : Product) :
  pk_unique id (products s) → p ∈ products s → is_active p = true →
  (∀ q, q ∈ products s → is_active q = true → slug q = slug p → q = p) →
  ∃ s' p',
    retrieve ProductSerializer request_user (slug p) s
    = (s', inr (mkResponse (ProductSerializer p) HTTP_200_OK))
    ∧ objects_get (λ x, id x = id p) (products s') = inr p'
    ∧ view_count p' = view_count p + 1
    ∧ slug p' = slug p ∧ is_active p' = is_active p ∧ store p' = store p
    ∧ (∀ q, q ∈ products s → id q ≠ id p → q ∈ products s')
    ∧ length (products s') = length (products s)
    ∧ stores s' = stores s
    ∧ behavior_logs s'
      = behavior_logs s
        ++ match request_user with
           | Some u =>
               [Products.mkUserBehaviorLog
                  (next_pk Products.log_id (behavior_logs s)) u (id p) "view"
                  (PDict [("source", PStr "product_detail")])]
           | None => []
           end.
Proof.
  intros Hpk Hin Hact Hslug.
  assert (get_object_or_404 (λ x, slug x = slug p) (detail_queryset s)
          = inr p) as Hget.
  { unfold get_object_or_404, objects_get, detail_queryset.
    assert (p ∈ filter (λ x, is_active x = true) (products s)) as Hp
      by (by apply list_elem_of_filter).
    destruct (filter (λ x, slug x = slug p) _) as [|x [|y l]] eqn:Hf.
    - assert (p ∈ filter (λ x, slug x = slug p)
                    (filter (λ x, is_active x = true) (products s))) as Hp'
        by (by apply list_elem_of_filter).
      rewrite Hf in Hp'. by apply elem_of_nil in Hp'.
    - assert (x ∈ filter (λ x, slug x = slug p)
                    (filter (λ x, is_active x = true) (products s))) as Hx
        by (rewrite Hf; apply list_elem_of_here).
      apply list_elem_of_filter in Hx as [Hxs Hx].
      apply list_elem_of_filter in Hx as [Hxa Hx].
      by rewrite (Hslug x Hx Hxa Hxs).
    - exfalso.
      assert (NoDup (id <$> filter (λ x, slug x = slug p)
                (filter (λ x, is_active x = true) (products s)))) as Hnd
        by (by do 2 apply key_unique_filter).
      rewrite Hf in Hnd.
      assert (∀ z, z ∈ filter (λ x, slug x = slug p)
                (filter (λ x, is_active x = true) (products s)) → z = p)
        as Hall.
      { intros z Hz. apply list_elem_of_filter in Hz as [Hzs Hz].
        apply list_elem_of_filter in Hz as [Hza Hz]. by apply Hslug. }
      rewrite Hf in Hall.
      assert (x = p) as -> by (apply Hall, list_elem_of_here).
      assert (y = p) as ->
        by (apply Hall, list_elem_of_further, list_elem_of_here).
      simpl in Hnd. apply NoDup_cons in Hnd as [Hnot _].
      apply Hnot, list_elem_of_here. }
  set (f := λ x, {| id := id x; slug := slug x; is_active := is_active x;
                    store := store x; view_count := view_count x + 1 |}).
  assert (objects_get (λ x, id x = id p) (update_pk id (id p) f (products s))
          = inr (f p)) as Hnew.
  { unfold objects_get. rewrite (filter_pk_unique id _ _ (f p)); try done.
    - unfold pk_unique. by rewrite update_pk_pks.
    - by apply (elem_of_update_pk id f). }
  assert (∀ q, q ∈ products s → id q ≠ id p →
               q ∈ update_pk id (id p) f (products s)) as Hother.
  { intros q Hq Hne. unfold update_pk. apply list_elem_of_fmap.
    exists q. by rewrite decide_False. }
  assert (length (update_pk id (id p) f (products s)) = length (products s))
    as Hlen by (unfold update_pk; by rewrite length_fmap).
  unfold retrieve, bind, query, increment_view_count, modify, ret.
  rewrite Hget. cbn beta iota. fold f.
  destruct request_user as [user|]; eexists _, (f p);
    (split; [reflexivity|]); simpl; rewrite ?app_nil_r; done.
Qed.

Lemma retrieve_counts_one_view_witness :
  ∃ s' p',
    retrieve sample_serializer (Some 9) "lamp" sample_db
    = (s', inr (mkResponse (sample_serializer (mkProduct 1 "lamp" true 1 4))
                           HTTP_200_OK))
    ∧ objects_get (λ x, id x = 1) (products s') = inr p'
    ∧ view_count p' = 4 + 1
    ∧ slug p' = "lamp" ∧ is_active p' = true ∧ store p' = 1
    ∧ (∀ q, q ∈ products sample_db → id q ≠ 1 → q ∈ products s')
    ∧ length (products s') = 2%nat
    ∧ stores s' = stores sample_db
    ∧ behavior_logs s'
      = [] ++ [Products.mkUserBehaviorLog 1 9 1 "view"
                 (PDict [("source", PStr "product_detail")])].
Proof.
  apply (retrieve_counts_one_view sample_serializer (Some 9) sample_db
           (mkProduct 1 "lamp" true 1 4)).
  - unfold pk_unique. simpl. repeat constructor; set_solver.
  - simpl. apply list_elem_of_here.
  - reflexivity.
  - intros q Hq Ha Hs. simpl in Hq.
    apply elem_of_cons in Hq as [->|Hq]; [done|].
    apply list_elem_of_singleton in Hq as ->. done.
Defined.

(** A slug that no active product carries raises [Http404], and nothing is
    counted or logged: an inactive product cannot be viewed. *)
Theorem retrieve_hides_inactive (ProductSerializer : Product → pyval)
    (request_user : option Z) (slug_arg : string) (s : Db) :
  (∀ q, q ∈ products s → is_active q = true → slug q ≠ slug_arg) →
  retrieve ProductSerializer request_user slug_arg s = (s, inl Http404).
Proof.
  intros Hno. unfold retrieve, bind, query, get_object_or_404.
  rewrite objects_get_missing; [done|].
  intros q Hq Hs. apply list_elem_of_filter in Hq as [Ha Hq].
  by apply (Hno q).
Qed.

Lemma retrieve_hides_inactive_witness :
  retrieve sample_serializer (Some 9) "desk" sample_db
  = (sample_db, inl Http404).
Proof.
  apply (retrieve_hides_inactive sample_serializer (Some 9) "desk" sample_db).
  intros q Hq Ha. simpl in Hq.
  apply elem_of_cons in Hq as [->|Hq]; [done|].
  apply list_elem_of_singleton in Hq as ->. done.
Defined.

(** A product is created only for a user flagged as store owner who has
    exactly one active store, and it is placed in that store under a new
    key; every other request raises and writes nothing. *)
Theorem perform_create_in_own_store (user : User)
    (validated_data : ProductData) (s : Db) :
  match perform_create user validated_data s with
  | (s', inr product) =>
      is_store_owner user = true
      ∧ (∃ st, filter (λ st, owner st = user_id user
                             ∧ store_is_active st = true) (stores s) = [st]
               ∧ store product = store_id st)
      ∧ products s' = products s ++ [product]
      ∧ (id product ∉ (id <$> products s))
      ∧ view_count product = 0
      ∧ stores s' = stores s ∧ behavior_logs s' = behavior_logs s
  | (s', inl e) =>
      s' = s
      ∧ (is_store_owner user = false →
         e = PermissionError "Only store owners can create products")
  end.
Proof.
  unfold perform_create.
  destruct (is_store_owner user); simpl; [|done].
  destruct (get_object_or_404 _ _) as [e|st] eqn:Hget; [done|].
  unfold get_object_or_404 in Hget.
  destruct (objects_get _ _) as [[]|st'] eqn:Hobj; simplify_eq.
  apply objects_get_found in Hobj as (_ & _ & Hf).
  split; [done|]. split; [by exists st|].
  repeat split; try done. apply next_pk_fresh.
Qed.

(** The product just created can be updated by its creator and by nobody
    else: it is in the update queryset of the creator only. *)
Theorem created_product_is_owners (user : User)
    (validated_data : ProductData) (s s' : Db) (product : Product) :
  pk_unique store_id (stores s) →
  perform_create user validated_data s = (s', inr product) →
  product ∈ update_queryset (user_id user) s'
  ∧ ∀ u', u' ≠ user_id user → product ∉ update_queryset u' s'.
Proof.
  intros Hpk Hrun. unfold perform_create in Hrun.
  destruct (is_store_owner user); simpl in Hrun; [|done].
  destruct (get_object_or_404 _ _) as [e|st] eqn:Hget; [done|].
  injection Hrun as <- <-.
  unfold get_object_or_404 in Hget.
  destruct (objects_get _ _) as [[]|st'] eqn:Hobj; simplify_eq.
  apply objects_get_found in Hobj as (Hin & [Hown _] & _).
  unfold update_queryset. cbn [stores products set_products]. split.
  - apply list_elem_of_filter. split.
    + apply Exists_exists. by exists st.
    + set_solver.
  - intros u' Hne Hq. apply list_elem_of_filter in Hq as [Hex _].
    apply Exists_exists in Hex as (st' & Hin' & Hid & Hown').
    simpl in Hid.
    assert (st' = st) as ->
      by (apply (key_unique_inj store_id (stores s)); [done..|congruence]).
    congruence.
Qed.

Lemma created_product_is_owners_witness :
  mkProduct 3 "sofa" true 1 0
    ∈ update_queryset 7
        (fst (perform_create (mkUser 7 true) (mkProductData "sofa" true)
                sample_db))
  ∧ ∀ u', u' ≠ 7 →
      mkProduct 3 "sofa" true 1 0
        ∉ update_queryset u'
            (fst (perform_create (mkUser 7 true) (mkProductData "sofa" true)
                    sample_db)).
Proof.
  apply (created_product_is_owners (mkUser 7 true)
           (mkProductData "sofa" true) sample_db).
  - unfold pk_unique. simpl. repeat constructor; set_solver.
  - reflexivity.
Defined.

End CatalogFacts.

(** ** products/urls.py and comparisons/urls.py *)

Module UrlsFacts.
Import Urls.

Example resolve_best :
  resolve products_urlpatterns "best/"
  = Some ("product_detail", [("slug", "best")]).
Proof. reflexivity. Qed.

Example resolve_like :
  resolve products_urlpatterns "red-lamp_2/like/"
  = Some ("toggle_product_like", [("slug", "red-lamp_2")]).
Proof. reflexivity. Qed.

Example resolve_store :
  resolve products_urlpatterns "stores/acme/"
  = Some ("store_detail", [("slug", "acme")]).
Proof. reflexivity. Qed.

Example resolve_unknown : resolve products_urlpatterns "a.b/" = None.
Proof. reflexivity. Qed.

(** *** Matching *)

Lemma strip_prefix_Some (t s after : string) :
  strip_prefix t s = Some after ↔ s = t +:+ after.
Proof.
  revert s. induction t as [|a t IH]; intros s.
  - change ("" +:+ after) with after. simpl. split; [by intros [= ->]|by intros ->].
  - change (String a t +:+ after) with (String a (t +:+ after)).
    destruct s as [|b s]; simpl; [done|].
    case_decide as Hab.
    + subst b. rewrite IH. split; [by intros ->|by intros [= ->]].
    + split; [done|]. intros [= -> _]. done.
Qed.

Lemma append_empty_r (s : string) : s +:+ "" = s.
Proof.
  induction s as [|c s IH]; [done|].
  change (String c s +:+ "") with (String c (s +:+ "")). by rewrite IH.
Qed.

(** A literal route matches its own text and nothing else. *)
Lemma match_text (t path : string) kwargs :
  match_route [Text t] path = Some kwargs ↔ path = t ∧ kwargs = [].
Proof.
  simpl. split.
  - destruct (strip_prefix t path) as [after|] eqn:Hs; [|done].
    apply strip_prefix_Some in Hs. case_decide; [|done].
    intros [= <-]. subst. by rewrite append_empty_r.
  - intros [-> ->].
    assert (strip_prefix t t = Some "") as ->
      by (apply strip_prefix_Some; by rewrite append_empty_r).
    done.
Qed.

Lemma string_forall_impl (P Q : ascii → Prop) (s : string) :
  (∀ c, P c → Q c) → string_forall P s → string_forall Q s.
Proof.
  intros HPQ. induction s as [|c s IH]; simpl; [done|].
  intros [Hc Hs]. split; auto.
Qed.

Lemma is_slug_no_slash (v : string) :
  is_slug v → string_forall (λ c, c ≠ "/"%char) v.
Proof.
  intros [_ Hv]. eapply string_forall_impl; [|exact Hv].
  intros c Hc ->. done.
Qed.

(** What [slug_prefixes] lists. *)
Lemma elem_of_slug_prefixes (s v after : string) :
  (v, after) ∈ slug_prefixes s ↔ s = v +:+ after ∧ is_slug v.
Proof.
  revert v. induction s as [|c s IH]; intros v; simpl.
  - split; [by intros ?%elem_of_nil|].
    intros [Heq [Hne _]]. destruct v; [done|discriminate].
  - destruct (is_slug_char c) eqn:Hc.
    + rewrite elem_of_app, list_elem_of_fmap, list_elem_of_singleton. split.
      * intros [([v' after'] & [= -> ->] & Hin)|[= -> ->]].
        -- apply IH in Hin as [-> [Hne Hv']]. by repeat split.
        -- by repeat split.
      * intros [Heq [Hne Hv]]. destruct v as [|c' v]; [done|].
        simpl in Heq. injection Heq as <- ->. destruct Hv as [_ Hv].
        destruct v as [|c'' v].
        -- by right.
        -- left. exists (String c'' v, after). split; [done|].
           apply IH. split; [done|]. split; [done|]. exact Hv.
    + split; [by intros ?%elem_of_nil|].
      intros [Heq [Hne Hv]]. destruct v as [|c' v]; [done|].
      simpl in Heq. injection Heq as <- ->. destruct Hv as [Hc' _].
      congruence.
Qed.

Lemma first_match_Some {A B : Type} (f : A → option B) (l : list A) y :
  first_match f l = Some y → ∃ x, x ∈ l ∧ f x = Some y.
Proof.
  induction l as [|x l IH]; simpl; [done|].
  destruct (f x) as [y'|] eqn:Hx.
  - intros [= ->]. exists x. split; [apply list_elem_of_here|done].
  - intros (x' & Hin & Hx')%IH. exists x'.
    split; [by apply list_elem_of_further|done].
Qed.

Lemma first_match_None {A B : Type} (f : A → option B) (l : list A) :
  first_match f l = None → ∀ x, x ∈ l → f x = None.
Proof.
  induction l as [|x l IH]; simpl; [by intros _ ? ?%elem_of_nil|].
  destruct (f x) as [y'|] eqn:Hx; [done|].
  intros Hl x' [->|Hin]%elem_of_cons; [done|]. by apply IH.
Qed.

(** A route made of a slug and a literal that starts with a slash reads
    the slug up to that slash. *)
Lemma match_slug_then_text (name t path : string) kwargs :
  match_route [SlugParam name; Text ("/" +:+ t)] path = Some kwargs
  ↔ ∃ v, is_slug v ∧ path = v +:+ "/" +:+ t ∧ kwargs = [(name, v)].
Proof.
  assert (∀ v after kw',
    (cons (name, v) <$> match_route [Text ("/" +:+ t)] after) = Some kw'
    ↔ after = "/" +:+ t ∧ kw' = [(name, v)]) as Hstep.
  { intros v after kw'.
    destruct (match_route [Text ("/" +:+ t)] after) as [kw|] eqn:Hm.
    - apply match_text in Hm as [-> ->]. simpl. naive_solver.
    - simpl. split; [done|]. intros [-> _].
      assert (match_route [Text ("/" +:+ t)] ("/" +:+ t) = Some [])
        by (by apply match_text).
      congruence. }
  change (match_route [SlugParam name; Text ("/" +:+ t)] path)
    with (first_match
            (λ '(v, after),
               cons (name, v) <$> match_route [Text ("/" +:+ t)] after)
            (slug_prefixes path)).
  split.
  - intros ([v after] & Hin & Hf)%first_match_Some.
    apply elem_of_slug_prefixes in Hin as [-> Hv].
    apply Hstep in Hf as [-> ->]. by exists v.
  - intros (v & Hv & -> & ->).
    destruct (first_match _ _) as [kw|] eqn:Hm.
    + apply first_match_Some in Hm as ([v' after] & Hin & Hf).
      apply elem_of_slug_prefixes in Hin as [Heq Hv'].
      apply Hstep in Hf as [-> ->].
      apply split_at_separator in Heq as [-> _];
        [done|by apply is_slug_no_slash..].
    + exfalso.
      assert ((v, "/" +:+ t) ∈ slug_prefixes (v +:+ "/" +:+ t)) as Hin
        by (by apply elem_of_slug_prefixes).
      pose proof (first_match_None _ _ Hm _ Hin) as Hnone. cbn beta iota in Hnone.
      assert ((cons (name, v) <$> match_route [Text ("/" +:+ t)]
                 ("/" +:+ t)) = Some [(name, v)]) as Hsome
        by (by apply Hstep).
      congruence.
Qed.

Lemma match_text_then (t : string) (rest : list token) (path : string)
    kwargs :
  match_route (Text t :: rest) path = Some kwargs
  ↔ ∃ after, path = t +:+ after ∧ match_route rest after = Some kwargs.
Proof.
  change (match_route (Text t :: rest) path)
    with (match strip_prefix t path with
          | Some after => match_route rest after
          | None => None
          end).
  split.
  - destruct (strip_prefix t path) as [after|] eqn:Hs; [|done].
    apply strip_prefix_Some in Hs. intros Hm. by exists after.
  - intros (after & Hpath & Hm).
    apply strip_prefix_Some in Hpath. by rewrite Hpath.
Qed.

Lemma resolve_cons (route : list token) (name : string)
    (rest : list (list token * string)) (path : string) :
  resolve ((route, name) :: rest) path
  = match match_route route path with
    | Some kwargs => Some (name, kwargs)
    | None => resolve rest path
    end.
Proof. reflexivity. Qed.

Lemma is_slug_nonempty_path (v rest : string) :
  is_slug v → v +:+ rest ≠ "".
Proof. intros [Hne _]. by destruct v. Qed.

(** Destructs the outermost route test of a resolution in [H]. *)
Ltac route_step H :=
  match type of H with
  | context [match match_route ?r ?p with _ => _ end] =>
      let Hr := fresh "Hroute" in
      destruct (match_route r p) eqn:Hr; [try discriminate H|]
  end.

(** products/urls.py: [best/] is listed after [<slug:slug>/], which
    matches it first.  No path reaches the [best_products] view; whatever
    a path resolves to is one of the ten views listed before it. *)
Theorem best_products_is_shadowed (path name : string)
    (kwargs : list (string * string)) :
  resolve products_urlpatterns path = Some (name, kwargs) →
  name ≠ "best_products".
Proof.
  intros H ->. unfold products_urlpatterns in H.
  rewrite !resolve_cons in H.
  do 10 route_step H.
  route_step H; [|done].
  match goal with
  | Hb : match_route [Text "best/"] path = Some _ |- _ =>
      apply match_text in Hb as [-> _]
  end.
  match goal with
  | Hd : match_route [SlugParam "slug"; Text "/"] "best/" = None |- _ =>
      vm_compute in Hd; discriminate Hd
  end.
Qed.

Lemma best_products_is_shadowed_witness :
  resolve products_urlpatterns "best/"
  = Some ("product_detail", [("slug", "best")])
  ∧ "product_detail" ≠ "best_products".
Proof.
  split; [reflexivity|].
  apply (best_products_is_shadowed "best/" "product_detail"
           [("slug", "best")]).
  reflexivity.
Defined.

(** What the routes listed before the slug routes do with a path that
    starts with a slug and a slash: a literal route matches when the path
    is its text, [stores/<slug>/] when the slug is [stores]. *)
Lemma literal_on_slug_path (t v rest : string) kwargs :
  is_slug v →
  match_route [Text t] (v +:+ "/" +:+ rest) = Some kwargs →
  ∀ t', string_forall (λ c, c ≠ "/"%char) t' →
  ∀ rest', t = t' +:+ "/" +:+ rest' → v = t' ∧ rest = rest'.
Proof.
  intros Hv [Hpath _]%match_text t' Ht' rest' ->.
  apply (split_at_separator "/" v rest t' rest') in Hpath;
    [done|by apply is_slug_no_slash|done].
Qed.

Lemma store_detail_on_slug_path (v rest : string) kwargs :
  is_slug v →
  match_route [Text "stores/"; SlugParam "slug"; Text "/"]
    (v +:+ "/" +:+ rest) = Some kwargs →
  v = "stores".
Proof.
  intros Hv (after & Hpath & _)%match_text_then.
  apply (split_at_separator "/" v rest "stores" after) in Hpath as [-> _];
    [done|by apply is_slug_no_slash|by vm_compute].
Qed.

Lemma slug_route_on_slug_path (t v rest : string) kwargs :
  is_slug v →
  match_route [SlugParam "slug"; Text ("/" +:+ t)] (v +:+ "/" +:+ rest)
  = Some kwargs ↔ rest = t ∧ kwargs = [("slug", v)].
Proof.
  intros Hv. rewrite match_slug_then_text. split.
  - intros (v' & Hv' & Hpath & ->).
    apply (split_at_separator "/" v rest v' t) in Hpath as [-> ->];
      [done|by apply is_slug_no_slash..].
  - intros [-> ->]. by exists v.
Qed.

(** products/urls.py: the paths that reach [ProductDetailView] are the
    slugs followed by a slash, except the four slugs whose path an earlier
    route takes. *)
Theorem product_detail_paths (path : string)
    (kwargs : list (string * string)) :
  resolve products_urlpatterns path = Some ("product_detail", kwargs)
  ↔ ∃ v, is_slug v ∧ (v ∉ reserved_slugs)
         ∧ path = v +:+ "/" ∧ kwargs = [("slug", v)].
Proof.
  unfold products_urlpatterns. rewrite !resolve_cons. split.
  - intros H. do 6 route_step H.
    route_step H; [|by repeat route_step H].
    injection H as ->.
    match goal with
    | Hd : match_route [SlugParam "slug"; Text "/"] path = Some _ |- _ =>
        apply (match_slug_then_text "slug" "") in Hd
          as (v & Hv & -> & ->)
    end.
    exists v. split; [done|]. split; [|done].
    unfold reserved_slugs. rewrite !elem_of_cons, elem_of_nil.
    intros [->|[->|[->|[->|[]]]]];
      match goal with
      | Hr : match_route [Text _] _ = None |- _ =>
          vm_compute in Hr; discriminate Hr
      end.
  - intros (v & Hv & Hres & -> & ->).
    unfold reserved_slugs in Hres.
    rewrite !elem_of_cons, elem_of_nil in Hres.
    change (v +:+ "/") with (v +:+ "/" +:+ "").
    destruct (match_route [Text "categories/"] _) eqn:H1.
    { destruct (literal_on_slug_path _ _ _ _ Hv H1 "categories"
                  ltac:(by vm_compute) "" eq_refl) as [-> _].
      destruct Hres. auto. }
    destruct (match_route [Text "brands/"] _) eqn:H2.
    { destruct (literal_on_slug_path _ _ _ _ Hv H2 "brands"
                  ltac:(by vm_compute) "" eq_refl) as [-> _].
      destruct Hres. auto. }
    destruct (match_route [Text "stores/"] _) eqn:H3.
    { destruct (literal_on_slug_path _ _ _ _ Hv H3 "stores"
                  ltac:(by vm_compute) "" eq_refl) as [-> _].
      destruct Hres. auto. }
    destruct (match_route [Text "stores/"; _; _] _) eqn:H4.
    { apply store_detail_on_slug_path in H4 as ->; [|done].
      destruct Hres. auto. }
    destruct (match_route [Text ""] _) eqn:H5.
    { apply match_text in H5 as [H5 _].
      by apply is_slug_nonempty_path in H5. }
    destruct (match_route [Text "create/"] _) eqn:H6.
    { destruct (literal_on_slug_path _ _ _ _ Hv H6 "create"
                  ltac:(by vm_compute) "" eq_refl) as [-> _].
      destruct Hres. auto. }
    assert (match_route [SlugParam "slug"; Text "/"] (v +:+ "/" +:+ "")
            = Some [("slug", v)]) as ->
      by (by apply (slug_route_on_slug_path "" v "")).
    done.
Qed.

(** products/urls.py: [<slug>/like/] reaches [toggle_product_like] for
    every slug but [stores], whose path [stores/like/] is the detail page
    of the store named [like]. *)
Theorem toggle_product_like_paths (path : string)
    (kwargs : list (string * string)) :
  resolve products_urlpatterns path = Some ("toggle_product_like", kwargs)
  ↔ ∃ v, is_slug v ∧ v ≠ "stores"
         ∧ path = v +:+ "/like/" ∧ kwargs = [("slug", v)].
Proof.
  unfold products_urlpatterns. rewrite !resolve_cons. split.
  - intros H. do 9 route_step H.
    route_step H; [|by repeat route_step H].
    injection H as ->.
    match goal with
    | Hd : match_route [SlugParam "slug"; Text "/like/"] path = Some _
      |- _ =>
        apply (match_slug_then_text "slug" "like/") in Hd
          as (v & Hv & -> & ->)
    end.
    exists v. split; [done|]. split; [|done].
    intros ->.
    match goal with
    | Hr : match_route [Text "stores/"; _; _] _ = None |- _ =>
        vm_compute in Hr; discriminate Hr
    end.
  - intros (v & Hv & Hres & -> & ->).
    change (v +:+ "/like/") with (v +:+ "/" +:+ "like/").
    destruct (match_route [Text "categories/"] _) eqn:H1.
    { by destruct (literal_on_slug_path _ _ _ _ Hv H1 "categories"
                     ltac:(by vm_compute) "" eq_refl). }
    destruct (match_route [Text "brands/"] _) eqn:H2.
    { by destruct (literal_on_slug_path _ _ _ _ Hv H2 "brands"
                     ltac:(by vm_compute) "" eq_refl). }
    destruct (match_route [Text "stores/"] _) eqn:H3.
    { by destruct (literal_on_slug_path _ _ _ _ Hv H3 "stores"
                     ltac:(by vm_compute) "" eq_refl). }
    destruct (match_route [Text "stores/"; _; _] _) eqn:H4.
    { by apply store_detail_on_slug_path in H4. }
    destruct (match_route [Text ""] _) eqn:H5.
    { apply match_text in H5 as [H5 _].
      by apply is_slug_nonempty_path in H5. }
    destruct (match_route [Text "create/"] _) eqn:H6.
    { by destruct (literal_on_slug_path _ _ _ _ Hv H6 "create"
                     ltac:(by vm_compute) "" eq_refl). }
    destruct (match_route [SlugParam "slug"; Text "/"] _) eqn:H7.
    { by apply (slug_route_on_slug_path "" v "like/") in H7 as [? _]. }
    destruct (match_route [SlugParam "slug"; Text "/update/"] _) eqn:H8.
    { by apply (slug_route_on_slug_path "update/" v "like/") in H8
        as [? _]. }
    destruct (match_route [SlugParam "slug"; Text "/similar/"] _) eqn:H9.
    { by apply (slug_route_on_slug_path "similar/" v "like/") in H9
        as [? _]. }
    assert (match_route [SlugParam "slug"; Text "/like/"]
              (v +:+ "/" +:+ "like/") = Some [("slug", v)]) as ->
      by (by apply (slug_route_on_slug_path "like/" v "like/")).
    done.
Qed.

(** comparisons/urls.py: three literal routes, each reached by its own
    text and by nothing else, with no keyword argument. *)
Theorem comparison_routes_are_literal (path name : string)
    (kwargs : list (string * string)) :
  resolve comparisons_urlpatterns path = Some (name, kwargs)
  ↔ kwargs = []
    ∧ (path = "products/" ∧ name = "compare_products"
       ∨ path = "stores/" ∧ name = "compare_stores"
       ∨ path = "history/" ∧ name = "comparison_history").
Proof.
  unfold comparisons_urlpatterns. rewrite !resolve_cons. split.
  - intros H.
    destruct (match_route [Text "products/"] path) eqn:H1.
    { apply match_text in H1 as [-> ->]. injection H as <-. auto. }
    destruct (match_route [Text "stores/"] path) eqn:H2.
    { apply match_text in H2 as [-> ->]. injection H as <-. auto. }
    destruct (match_route [Text "history/"] path) eqn:H3; [|done].
    apply match_text in H3 as [-> ->]. injection H as <-. auto 6.
  - intros [-> [[-> ->]|[[-> ->]|[-> ->]]]]; reflexivity.
Qed.

End UrlsFacts.

(** ** comparisons/views.py: stores and history *)

Module StoreComparisonsFacts.
Import StoreComparisons.

(** The count test of [compare_stores] and [compare_products]: the rows
    selected by a list of keys are as many as the list is long exactly when
    the list repeats no key and every key of it selects a row. *)
Lemma count_matches_iff {Row : Type} (key : Row → Z) (P : Row → Prop)
    `{∀ r, Decision (P r)} (ids : list Z) (rows : list Row) :
  NoDup (key <$> rows) →
  length (filter (λ r, key r ∈ ids ∧ P r) rows) = length ids
  ↔ NoDup ids ∧ ∀ i, i ∈ ids → i ∈ (key <$> filter P rows).
Proof.
  intros Hpk.
  set (found := key <$> filter (λ r, key r ∈ ids ∧ P r) rows).
  assert (NoDup found) as Hfound by (by apply key_unique_filter).
  assert (∀ i, i ∈ found ↔ i ∈ ids ∧ i ∈ (key <$> filter P rows)) as Hin.
  { intros i. unfold found. rewrite !list_elem_of_fmap. split.
    - intros (r & -> & [[Hr HP] Hrows]%list_elem_of_filter).
      split; [done|]. exists r. split; [done|].
      by apply list_elem_of_filter.
    - intros [Hi (r & -> & [HP Hrows]%list_elem_of_filter)].
      exists r. split; [done|]. by apply list_elem_of_filter. }
  assert (length (filter (λ r, key r ∈ ids ∧ P r) rows) = length found)
    as -> by (unfold found; by rewrite length_fmap).
  split.
  - intros Hlen.
    assert (found ≡ₚ ids) as Hperm.
    { apply submseteq_length_Permutation; [|lia].
      apply NoDup_submseteq; [done|].
      intros x Hx. by apply Hin in Hx as [? _]. }
    split; [by rewrite <- Hperm|].
    intros i Hi. rewrite <- Hperm in Hi. by apply Hin in Hi as [_ ?].
  - intros [Hids Hall]. apply Permutation_length, NoDup_Permutation; [done..|].
    intros x. rewrite Hin. naive_solver.
Qed.

(** The newest [n] rows of a selection: as many as there are, up to [n];
    rows of the selection; newest first; and no row of the selection that
    is left out is newer than a listed one. *)
Lemma newest_rows {Row : Type} (column : Row → Z) (P : Row → Prop)
    `{∀ r, Decision (P r)} (n : nat) (rows : list Row) :
  let listed := take n (order_by_desc column (filter P rows)) in
  length listed = (n `min` length (filter P rows))%nat
  ∧ (∀ c, c ∈ listed → c ∈ rows ∧ P c)
  ∧ StronglySorted (λ a b, column b ≤ column a) listed
  ∧ (∀ c c', c ∈ rows → P c → c ∉ listed → c' ∈ listed →
             column c ≤ column c').
Proof.
  intros listed. unfold listed.
  pose proof (order_by_desc_Permutation column (filter P rows)) as Hperm.
  pose proof (order_by_desc_sorted column (filter P rows)) as Hsorted.
  set (sorted := order_by_desc column (filter P rows)) in *.
  rewrite <- (take_drop n sorted) in Hsorted.
  apply StronglySorted_app in Hsorted as (Hbefore & Htake & Hdrop).
  split; [|split; [|split]].
  - rewrite length_take. by rewrite Hperm.
  - intros c Hc%subseteq_take. rewrite Hperm in Hc.
    apply list_elem_of_filter in Hc. naive_solver.
  - exact Htake.
  - intros c c' Hc HP Hout Hin.
    assert (c ∈ sorted) as Hs
      by (rewrite Hperm; by apply list_elem_of_filter).
    rewrite <- (take_drop n sorted) in Hs.
    apply elem_of_app in Hs as [Hs|Hs]; [done|].
    by apply Hbefore.
Qed.

(** [compare_stores] on validated input, over a store table with unique
    keys: the view always answers, and the answer is the 404 exactly when
    the submitted list repeats an id or names a store that is missing or
    inactive. *)
Theorem compare_stores_not_found_iff (env : Env) (v : StoreRequest)
    (s : Db) :
  is_valid env = inr v → pk_unique Catalog.store_id (store_rows s) →
  ∃ response,
    snd (compare_stores env s) = inr response
    ∧ (status response = HTTP_404_NOT_FOUND
       ↔ ¬ NoDup (store_ids v)
         ∨ ∃ i, i ∈ store_ids v ∧ i ∉ active_store_ids (store_rows s)).
Proof.
  intros Hvalid Hpk.
  pose proof (count_matches_iff Catalog.store_id
                (λ r, Catalog.store_is_active r = true)
                (store_ids v) (store_rows s) Hpk) as Hcount.
  fold (active_stores_in (store_ids v) (store_rows s)) in Hcount.
  fold (active_store_ids (store_rows s)) in Hcount.
  unfold compare_stores, try_except, bind, query, lift, ret.
  rewrite Hvalid. cbn beta iota.
  case_decide as Hlen.
  - eexists. split; [reflexivity|]. split; [|done]. intros _.
    destruct (decide (NoDup (store_ids v))) as [Hids|Hids]; [|by left].
    right.
    destruct (decide (Forall (λ i, i ∈ active_store_ids (store_rows s))
                        (store_ids v))) as [Hall|Hex].
    + destruct Hlen. apply Hcount. split; [done|].
      by apply Forall_forall.
    + apply not_Forall_Exists in Hex; [|apply _].
      apply Exists_exists in Hex as (i & Hi & Hno). by exists i.
  - assert (length (active_stores_in (store_ids v) (store_rows s))
            = length (store_ids v)) as Heq
      by (destruct (decide (length (active_stores_in (store_ids v)
                                      (store_rows s))
                            = length (store_ids v))); [done|by destruct Hlen]).
    apply Hcount in Heq as [Hids Hall].
    destruct (compare_stores_service env) as [e|insights];
      (eexists; split; [reflexivity|]; split; [by intros [=]|]);
      (intros [Hdup|(i & Hi & Hno)];
       [by destruct Hdup|destruct Hno; by apply Hall]).
Qed.

Lemma compare_stores_not_found_iff_witness :
  ∃ response,
    snd (compare_stores (sample_env [1; 1]) sample_db) = inr response
    ∧ (status response = HTTP_404_NOT_FOUND
       ↔ ¬ NoDup [1; 1]
         ∨ ∃ i, i ∈ [1; 1] ∧ i ∉ active_store_ids sample_stores).
Proof.
  apply (compare_stores_not_found_iff (sample_env [1; 1])
           (mkStoreRequest [1; 1] "overall" None) sample_db).
  - reflexivity.
  - unfold pk_unique. vm_compute. repeat constructor; set_solver.
Defined.

(** What [compare_stores] writes, whatever the request: it never raises,
    never touches the store table or the product comparisons, and leaves
    the database as it was unless it answers 201; a 201 appends exactly one
    comparison under a fresh key, for the caller, with the service's
    insights and the selected stores, and answers with that row. *)
Theorem compare_stores_writes_one_row (env : Env) (s : Db) :
  ∃ response,
    snd (compare_stores env s) = inr response
    ∧ store_rows (fst (compare_stores env s)) = store_rows s
    ∧ product_comparisons (fst (compare_stores env s))
      = product_comparisons s
    ∧ (status response ≠ HTTP_201_CREATED → fst (compare_stores env s) = s)
    ∧ (status response = HTTP_201_CREATED →
       ∃ v c,
         is_valid env = inr v
         ∧ compare_stores_service env = inr (ai_insights c)
         ∧ store_comparisons (fst (compare_stores env s))
           = store_comparisons s ++ [c]
         ∧ (id c ∉ (id <$> store_comparisons s))
         ∧ user c = request_user env
         ∧ comparison_type c = requested_type v
         ∧ stores c
           = Catalog.store_id
               <$> active_stores_in (store_ids v) (store_rows s)
         ∧ data response = StoreComparisonSerializer c).
Proof.
  unfold compare_stores, try_except, bind, query, lift, ret.
  destruct (is_valid env) as [errors|v] eqn:Hvalid; cbn beta iota.
  { eexists. split; [reflexivity|]. do 3 (split; [done|]). intros [=]. }
  case_decide as Hlen.
  { eexists. split; [reflexivity|]. do 3 (split; [done|]). intros [=]. }
  destruct (compare_stores_service env) as [e|insights] eqn:Hservice.
  { eexists. split; [reflexivity|]. do 3 (split; [done|]). intros [=]. }
  unfold StoreComparison_create, stores_set, set_store_comparisons.
  cbn beta iota zeta. cbn [store_comparisons store_rows product_comparisons
                           fst snd id].
  rewrite update_pk_snoc; [|apply next_pk_fresh|reflexivity].
  eexists. split; [reflexivity|]. split; [done|]. split; [done|].
  split; [by intros []|]. intros _.
  exists v, (mkStoreComparison (next_pk id (store_comparisons s))
               (request_user env) (requested_type v) insights
               (Catalog.store_id
                  <$> active_stores_in (store_ids v) (store_rows s))
               (clock env)).
  split; [done|]. split; [reflexivity|].
  split; [reflexivity|]. split; [apply next_pk_fresh|]. done.
Qed.

(** [get_comparison_history] reads and never writes.  An anonymous caller
    is answered 401.  A user is answered 200 with two lists, each holding
    the newest comparisons of that user and of nobody else: at most ten,
    all of them when there are ten or fewer, newest first, and no
    comparison of the user that is left out is newer than a listed one. *)
Theorem history_is_newest_ten (u : Z) (s : Db) :
  get_comparison_history None s
  = (s, inr (mkResponse (error_body "Authentication required")
                        HTTP_401_UNAUTHORIZED))
  ∧ get_comparison_history (Some u) s
    = (s, inr (mkResponse
                 (PDict
                    [("product_comparisons",
                      PList ((Comparisons.ProductComparisonSerializer
                                ∘ comparison) <$> product_history u s));
                     ("store_comparisons",
                      PList (StoreComparisonSerializer
                               <$> store_history u s))])
                 HTTP_200_OK))
  ∧ ((length (store_history u s)
      = 10 `min` length (filter (λ c, user c = Some u)
                           (store_comparisons s)))%nat
     ∧ (∀ c, c ∈ store_history u s →
             c ∈ store_comparisons s ∧ user c = Some u)
     ∧ StronglySorted (λ a b, created_at b ≤ created_at a)
         (store_history u s)
     ∧ (∀ c c', c ∈ store_comparisons s → user c = Some u →
                c ∉ store_history u s → c' ∈ store_history u s →
                created_at c ≤ created_at c'))
  ∧ ((length (product_history u s)
      = 10 `min` length (filter (λ c, Comparisons.user (comparison c)
                                      = Some u)
                           (product_comparisons s)))%nat
     ∧ (∀ c, c ∈ product_history u s →
             c ∈ product_comparisons s
             ∧ Comparisons.user (comparison c) = Some u)
     ∧ StronglySorted
         (λ a b, product_created_at b ≤ product_created_at a)
         (product_history u s)
     ∧ (∀ c c', c ∈ product_comparisons s →
                Comparisons.user (comparison c) = Some u →
                c ∉ product_history u s → c' ∈ product_history u s →
                product_created_at c ≤ product_created_at c')).
Proof.
  split; [reflexivity|]. split; [reflexivity|]. split.
  - exact (newest_rows created_at (λ c, user c = Some u) 10
             (store_comparisons s)).
  - exact (newest_rows product_created_at
             (λ c, Comparisons.user (comparison c) = Some u) 10
             (product_comparisons s)).
Qed.

End StoreComparisonsFacts.
